(** * done-client: the request/response contract of [DoneClient]

    A shallow embedding of [src/client.ts] and [src/types.ts] together with
    the fragment of the JavaScript run time the client relies on (values,
    truthiness, property reads, object spread, [Date], [JSON.stringify],
    [fetch] as an external call), followed by the properties of the client.

    Conventions of the embedding:
    - a JavaScript string is a [string], one [ascii] per UTF-16 code unit,
      so the model covers the strings whose code units are below 256;
    - a JavaScript number is a [Z]: the model covers the safe integers
      ([safe_integer]), on which [Number.prototype.toString] is the
      decimal expansion and truthiness is "non-zero"; a statement about
      the text of a number the caller chooses bounds the number so;
    - a BigInt is a [Z] of its own ([JBigInt]), of any size;
    - an object is the list of its own enumerable properties in their
      enumeration order (what [Object.entries] returns);
    - a [Record<string, string>] that is only read through its entries
      and written by key (the request headers, the caller's custom
      headers) is a finite map [gmap string string];
    - functions, symbols and cyclic objects are outside the data model;
      a function or symbol has no JSON text, and [JSON.stringify] throws
      on a cyclic object as it does on a BigInt;
    - [fetch] is the one effect of the client: a program is a tree whose
      nodes are the calls of [fetch], run against a transport; a request
      is the pair of arguments [fetch] receives. *)

From Stdlib Require Import ZArith Lia Ascii.
From stdpp Require Import gmap strings list fin_maps pretty.

Local Open Scope string_scope.
Local Open Scope Z_scope.

(** ** JavaScript values *)

Module JS.

(** The [[DateValue]] of a Date object: NaN or an integral number of
    milliseconds since the epoch. *)
Inductive JsDate : Type :=
  | InvalidDate
  | DateAt (tv : Z).

#[local] Set Warnings "-register-all".
Inductive JsValue : Type :=
  | JUndefined
  | JNull
  | JBool (b : bool)
  | JNum (n : Z)
  | JBigInt (n : Z)
  | JStr (s : string)
  | JDateV (d : JsDate)
  | JArr (items : list JsValue)
  | JObj (props : list (string * JsValue)).

(** What a [throw] or a rejected promise carries. [Error] is the plain
    [new Error(message)] of the client; the others are raised by the run
    time (their messages are engine specific) or by the transport. *)
Inductive JsError : Type :=
  | Error (message : string)
  | TypeError
  | RangeError
  | SyntaxError
  | NetworkFailure (reason : string).

Inductive Completion (A : Type) : Type :=
  | Normal (a : A)
  | Abrupt (e : JsError).
Arguments Normal {A} a.
Arguments Abrupt {A} e.

#[global] Instance Completion_mbind : MBind Completion := λ A B f c,
  match c with
  | Normal a => f a
  | Abrupt e => Abrupt e
  end.
#[global] Instance Completion_mret : MRet Completion := @Normal.

(** The elements of a list evaluated in turn, up to the first throw. *)
Definition Completion_mapM {A B : Type} (f : A → Completion B)
  : list A → Completion (list B) :=
  fix go (l : list A) : Completion (list B) :=
    match l with
    | [] => Normal []
    | x :: rest => y ← f x; ys ← go rest; Normal (y :: ys)
    end.

(** ToBoolean. Objects (arrays and Dates included, an invalid Date too)
    are truthy. *)
Definition ToBoolean (v : JsValue) : bool :=
  match v with
  | JUndefined | JNull => false
  | JBool b => b
  | JNum n | JBigInt n => negb (n =? 0)
  | JStr s => negb (String.eqb s "")
  | JDateV _ | JArr _ | JObj _ => true
  end.

Definition string_truthy (s : string) : bool := negb (String.eqb s "").
Definition number_truthy (n : Z) : bool := negb (n =? 0).

(** Number.MAX_SAFE_INTEGER, and the integers every one of which is a
    Number of its own. *)
Definition MAX_SAFE_INTEGER : Z := 9007199254740991.

(** Number.prototype.toString on a safe integer: its decimal expansion.
    (Beyond the safe integers a Number is written from rounded digits,
    and with an exponent from 1e21: not what this function gives.) *)
Definition Number_toString (n : Z) : string := pretty n.

(** BigInt.prototype.toString: the decimal expansion, at any size. *)
Definition BigInt_toString (n : Z) : string := pretty n.

(** *** Own properties *)

Fixpoint assoc (k : string) (props : list (string * JsValue)) : option JsValue :=
  match props with
  | [] => None
  | (k', v) :: rest => if String.eqb k k' then Some v else assoc k rest
  end.

(** [o[k] = v] on the property list: an existing property keeps its
    place, a new one (not an array index) goes last. *)
Fixpoint obj_set (k : string) (v : JsValue) (props : list (string * JsValue))
  : list (string * JsValue) :=
  match props with
  | [] => [(k, v)]
  | (k', v') :: rest =>
      if String.eqb k k' then (k, v) :: rest else (k', v') :: obj_set k v rest
  end.

(** [v.k] for a property name [k] that is neither an array index nor
    [length] nor a property of a built-in prototype, which is the case of
    every name the client reads: a TypeError on [undefined] and [null],
    the own property of an object, and [undefined] otherwise. *)
Definition Get (v : JsValue) (k : string) : Completion JsValue :=
  match v with
  | JUndefined | JNull => Abrupt TypeError
  | JObj props => Normal (default JUndefined (assoc k props))
  | _ => Normal JUndefined
  end.

Fixpoint index_entries (i : nat) (items : list JsValue) : list (string * JsValue) :=
  match items with
  | [] => []
  | x :: rest => (pretty i, x) :: index_entries (S i) rest
  end.

Fixpoint string_entries (i : nat) (s : string) : list (string * JsValue) :=
  match s with
  | EmptyString => []
  | String c rest => (pretty i, JStr (String c "")) :: string_entries (S i) rest
  end.

(** The own enumerable properties that [{...v}] copies
    (CopyDataProperties): none for [undefined], [null], booleans,
    numbers, BigInts and Dates, the indexed elements of an array or a
    string. *)
Definition spread (v : JsValue) : list (string * JsValue) :=
  match v with
  | JObj props => props
  | JArr items => index_entries 0 items
  | JStr s => string_entries 0 s
  | _ => []
  end.

(** ** Dates (ECMA-262, Date objects) *)

(** *** Days and the proleptic Gregorian calendar *)

Definition msPerSecond : Z := 1000.
Definition msPerMinute : Z := 60000.
Definition msPerHour : Z := 3600000.
Definition msPerDay : Z := 86400000.

Definition Day (t : Z) : Z := t / msPerDay.
Definition HourFromTime (t : Z) : Z := (t / msPerHour) mod 24.
Definition MinFromTime (t : Z) : Z := (t / msPerMinute) mod 60.
Definition SecFromTime (t : Z) : Z := (t / msPerSecond) mod 60.
Definition msFromTime (t : Z) : Z := t mod msPerSecond.

Definition InLeapYear (y : Z) : bool :=
  ((y mod 4 =? 0) && negb (y mod 100 =? 0)) || (y mod 400 =? 0).

(** Days of month [m] (1 to 12) of year [y]. *)
Definition DaysInMonth (y m : Z) : Z :=
  if m =? 2 then (if InLeapYear y then 29 else 28)
  else if (m =? 4) || (m =? 6) || (m =? 9) || (m =? 11) then 30
  else 31.

(** Year, month (1 to 12) and day of the month of a day number (days
    since 1970-01-01): YearFromTime, MonthFromTime + 1 and DateFromTime
    at once, by eras of 400 years that start on a 1st of March. *)
Definition civil_from_days (z : Z) : Z * Z * Z :=
  let z := z + 719468 in
  let era := z / 146097 in
  let doe := z mod 146097 in
  let yoe := (doe - doe / 1460 + doe / 36524 - doe / 146096) / 365 in
  let y := yoe + era * 400 in
  let doy := doe - (365 * yoe + yoe / 4 - yoe / 100) in
  let mp := (5 * doy + 2) / 153 in
  let d := doy - (153 * mp + 2) / 5 + 1 in
  let m := if mp <? 10 then mp + 3 else mp - 9 in
  (if m <=? 2 then y + 1 else y, m, d).

(** The day number of year [y], month [m] (1 to 12), day [d]. *)
Definition days_from_civil (y m d : Z) : Z :=
  let y := if m <=? 2 then y - 1 else y in
  let era := y / 400 in
  let yoe := y mod 400 in
  let doy := (153 * (if 2 <? m then m - 3 else m + 9) + 2) / 5 + d - 1 in
  let doe := yoe * 365 + yoe / 4 - yoe / 100 + doy in
  era * 146097 + doe - 719468.

(** MakeDay, with the month counted from 0 as in ECMA-262. *)
Definition MakeDay (year month date : Z) : Z :=
  let ym := year + month / 12 in
  let mn := month mod 12 in
  days_from_civil ym (mn + 1) 1 + date - 1.

Definition MakeTime (hour min sec ms : Z) : Z :=
  hour * msPerHour + min * msPerMinute + sec * msPerSecond + ms.

Definition MakeDate (day time : Z) : Z := day * msPerDay + time.

Definition maxTime : Z := 8640000000000000.

Definition TimeClip (t : Z) : JsDate :=
  if Z.abs t <=? maxTime then DateAt t else InvalidDate.

(** *** Decimal fields *)

Definition digit_char (d : Z) : ascii :=
  ascii_of_N (Z.to_N (48 + d)).

Definition digit_val (c : ascii) : option Z :=
  let n := Z.of_N (N_of_ascii c) in
  if (48 <=? n) && (n <=? 57) then Some (n - 48) else None.

(** The [n] low decimal digits of [z], zero padded, in front of [rest]. *)
Fixpoint digits (n : nat) (z : Z) (rest : string) : string :=
  match n with
  | O => rest
  | S n' => digits n' (z / 10) (String (digit_char (z mod 10)) rest)
  end.

(** Reads exactly [n] decimal digits. *)
Fixpoint read_digits (n : nat) (s : string) (acc : Z) : option (Z * string) :=
  match n with
  | O => Some (acc, s)
  | S n' =>
      match s with
      | String c s' =>
          match digit_val c with
          | Some d => read_digits n' s' (10 * acc + d)
          | None => None
          end
      | EmptyString => None
      end
  end.

(** *** Date.prototype.toISOString *)

(** Four digits for the years 0 to 9999, a sign and six digits for the
    others. *)
Definition year_digits (y : Z) (rest : string) : string :=
  if (0 <=? y) && (y <=? 9999) then digits 4 y rest
  else if y <? 0 then String "-" (digits 6 (- y) rest)
  else String "+" (digits 6 y rest).

Definition toISOString (d : JsDate) : Completion string :=
  match d with
  | InvalidDate => Abrupt RangeError
  | DateAt t =>
      let '(y, m, dd) := civil_from_days (Day t) in
      Normal
        (year_digits y ("-" +:+ digits 2 m ("-" +:+ digits 2 dd
          ("T" +:+ digits 2 (HourFromTime t) (":" +:+ digits 2 (MinFromTime t)
            (":" +:+ digits 2 (SecFromTime t) ("." +:+ digits 3 (msFromTime t)
              "Z")))))))
  end.

(** *** The date-time string format *)

(** [YYYY], or a sign and six digits; [-000000] is not a year. *)
Definition read_year (s : string) : option (Z * string) :=
  match s with
  | String "+" s' => read_digits 6 s' 0
  | String "-" s' =>
      '(y, r) ← read_digits 6 s' 0;
      if y =? 0 then None else Some (- y, r)
  | _ => read_digits 4 s 0
  end.

(** [-MM] and then [-DD], both optional; an absent field is 01. *)
Definition read_month_day (s : string) : option (Z * Z * string) :=
  match s with
  | String "-" s1 =>
      '(m, s2) ← read_digits 2 s1 0;
      match s2 with
      | String "-" s3 => '(d, s4) ← read_digits 2 s3 0; Some (m, d, s4)
      | _ => Some (m, 1, s2)
      end
  | _ => Some (1, 1, s)
  end.

(** [HH:mm], [HH:mm:ss] or [HH:mm:ss.sss], after the [T]. *)
Definition read_time (s : string) : option (Z * Z * Z * Z * string) :=
  '(h, s1) ← read_digits 2 s 0;
  match s1 with
  | String ":" s2 =>
      '(mi, s3) ← read_digits 2 s2 0;
      match s3 with
      | String ":" s4 =>
          '(sec, s5) ← read_digits 2 s4 0;
          match s5 with
          | String "." s6 =>
              '(ms, s7) ← read_digits 3 s6 0; Some (h, mi, sec, ms, s7)
          | _ => Some (h, mi, sec, 0, s5)
          end
      | _ => Some (h, mi, 0, 0, s3)
      end
  | _ => None
  end.

Definition read_hh_mm (s : string) : option Z :=
  '(h, s1) ← read_digits 2 s 0;
  match s1 with
  | String ":" s2 =>
      '(mi, s3) ← read_digits 2 s2 0;
      match s3 with
      | EmptyString =>
          if (h <=? 23) && (mi <=? 59) then Some (h * 60 + mi) else None
      | _ => None
      end
  | _ => None
  end.

(** The UTC offset that ends a date-time, in minutes east of UTC: [Z] or
    [+HH:mm] or [-HH:mm]. *)
Definition read_offset (s : string) : option Z :=
  match s with
  | String "Z" EmptyString => Some 0
  | String "+" s' => read_hh_mm s'
  | String "-" s' => Z.opp <$> read_hh_mm s'
  | _ => None
  end.

Definition valid_time (h mi sec ms : Z) : bool :=
  ((h <=? 23) && (mi <=? 59) && (sec <=? 59))
  || ((h =? 24) && (mi =? 0) && (sec =? 0) && (ms =? 0)).

(** The time value of a string of the ECMAScript date-time string format
    whose meaning the standard fixes: the date-only forms (UTC), and the
    date-time forms that carry a UTC offset. [None] on any other string:
    one that is not of the format, has a field out of bounds, or is a
    date-time without offset (local time). *)
Definition parse_iso (s : string) : option Z :=
  '(y, s1) ← read_year s;
  '(m, d, s2) ← read_month_day s1;
  if negb ((1 <=? m) && (m <=? 12) && (1 <=? d) && (d <=? DaysInMonth y m))
  then None
  else
    match s2 with
    | EmptyString => Some (MakeDate (MakeDay y (m - 1) d) 0)
    | String "T" s3 =>
        '(h, mi, sec, ms, s4) ← read_time s3;
        if valid_time h mi sec ms then
          off ← read_offset s4;
          Some (MakeDate (MakeDay y (m - 1) d) (MakeTime h mi sec ms)
                - off * msPerMinute)
        else None
    | _ => None
    end.

(** What the standard leaves to the host: the result of [Date.parse] on
    the strings [parse_iso] does not settle (implementation-specific
    formats and heuristics, the local time zone), and the text of
    [Date.prototype.toString]. *)
Record Host : Type := {
  host_parse : string → JsDate;
  host_Date_toString : JsDate → string
}.

Section WithHost.
Context (host : Host).

Definition Date_parse (s : string) : JsDate :=
  match parse_iso s with
  | Some t => TimeClip t
  | None => host_parse host s
  end.

(** ToString, as ToPrimitive needs it on an array or an object. No
    value of the model is callable, so an object with an own property
    [toString] has no method to convert it and ToPrimitive throws a
    TypeError; another object is converted by [Object.prototype.toString].
    An array is converted by [Array.prototype.join], which writes its
    [undefined] and [null] elements as the empty string and converts the
    others in turn. *)
Fixpoint ToString (v : JsValue) : Completion string :=
  match v with
  | JUndefined => Normal "undefined"
  | JNull => Normal "null"
  | JBool b => Normal (if b then "true" else "false")
  | JNum n => Normal (Number_toString n)
  | JBigInt n => Normal (BigInt_toString n)
  | JStr s => Normal s
  | JDateV d => Normal (host_Date_toString host d)
  | JArr items =>
      elements ←
        Completion_mapM (λ x, match x with
                              | JUndefined | JNull => Normal ""
                              | _ => ToString x
                              end) items;
      Normal (String.concat "," elements)
  | JObj props =>
      match assoc "toString" props with
      | Some _ => Abrupt TypeError
      | None => Normal "[object Object]"
      end
  end.

(** [new Date(v)]: the time value of a Date, the parse of a string (or
    of the string an array or object converts to, when it does),
    ToNumber of the other primitives, which throws a TypeError on a
    BigInt. *)
Definition new_Date (v : JsValue) : Completion JsDate :=
  match v with
  | JDateV d => Normal d
  | JStr s => Normal (Date_parse s)
  | JUndefined => Normal InvalidDate
  | JNull => Normal (TimeClip 0)
  | JBool b => Normal (TimeClip (if b then 1 else 0))
  | JNum n => Normal (TimeClip n)
  | JBigInt _ => Abrupt TypeError
  | JArr _ | JObj _ => s ← ToString v; Normal (Date_parse s)
  end.
End WithHost.

(** ** JSON.stringify *)

Definition dquote : ascii := ascii_of_N 34.
Definition backslash : ascii := ascii_of_N 92.

Definition hex_char (n : Z) : ascii :=
  if n <? 10 then ascii_of_N (Z.to_N (48 + n)) else ascii_of_N (Z.to_N (87 + n)).

(** One code unit of a quoted JSON string (QuoteJSONString): the short
    escapes, [\u00xx] for the other control characters, and the code
    unit itself otherwise. *)
Definition quote_code_unit (c : ascii) : string :=
  let n := Z.of_N (N_of_ascii c) in
  if n =? 8 then String backslash "b"
  else if n =? 9 then String backslash "t"
  else if n =? 10 then String backslash "n"
  else if n =? 12 then String backslash "f"
  else if n =? 13 then String backslash "r"
  else if n =? 34 then String backslash (String dquote "")
  else if n =? 92 then String backslash (String backslash "")
  else if n <? 32 then
    String backslash ("u00" +:+ String (hex_char (n / 16)) (String (hex_char (n mod 16)) ""))
  else String c "".

Fixpoint quote_code_units (s : string) : string :=
  match s with
  | EmptyString => ""
  | String c rest => quote_code_unit c +:+ quote_code_units rest
  end.

Definition QuoteJSONString (s : string) : string :=
  String dquote (quote_code_units s +:+ String dquote "").

(** SerializeJSONProperty with no replacer and no indentation: [None] is
    the [undefined] that [JSON.stringify] returns on [undefined]. A Date
    goes through its [toJSON]; an [undefined] array element is written
    [null], an [undefined] property is left out; a BigInt, at any depth,
    throws a TypeError. *)
Fixpoint SerializeJSONProperty (v : JsValue) : Completion (option string) :=
  match v with
  | JUndefined => Normal None
  | JNull => Normal (Some "null")
  | JBool b => Normal (Some (if b then "true" else "false"))
  | JNum n => Normal (Some (Number_toString n))
  | JBigInt _ => Abrupt TypeError
  | JStr s => Normal (Some (QuoteJSONString s))
  | JDateV d =>
      match toISOString d with
      | Normal s => Normal (Some (QuoteJSONString s))
      | Abrupt _ => Normal (Some "null")
      end
  | JArr items =>
      texts ←
        Completion_mapM (λ x, text ← SerializeJSONProperty x;
                              Normal (default "null" text)) items;
      Normal (Some ("[" +:+ String.concat "," texts +:+ "]"))
  | JObj props =>
      members ←
        Completion_mapM
          (λ '(k, x),
             text ← SerializeJSONProperty x;
             Normal (match text with
                     | Some str => Some (QuoteJSONString k +:+ ":" +:+ str)
                     | None => None
                     end)) props;
      Normal (Some ("{" +:+ String.concat "," (omap id members) +:+ "}"))
  end.

Definition JSON_stringify (v : JsValue) : Completion (option string) :=
  SerializeJSONProperty v.

(** ** The transport: [fetch] *)

(** The second argument of [fetch]. An absent [method] is a GET. *)
Record RequestInit : Type := {
  req_method : option string;
  req_headers : gmap string string;
  req_body : option string
}.

(** What the client reads of a [Response]: its status line, and the
    value [response.json()] resolves to ([None] when the body is not JSON
    text, the promise is then rejected with a SyntaxError). *)
Record Response : Type := {
  status : Z;
  statusText : string;
  json_body : option JsValue
}.

(** [response.ok]: the status is in the range 200 to 299. *)
Definition ok (r : Response) : bool := (200 <=? status r) && (status r <=? 299).

Inductive FetchOutcome : Type :=
  | Resolved (r : Response)
  | Rejected (e : JsError).

(** An [async] function body: it returns, throws, or awaits a call of
    [fetch] and goes on with its outcome. *)
Inductive Async (A : Type) : Type :=
  | Ret (a : A)
  | Throw (e : JsError)
  | Fetch (url : string) (init : RequestInit) (k : FetchOutcome → Async A).
Arguments Ret {A} a.
Arguments Throw {A} e.
Arguments Fetch {A} url init k.

Fixpoint Async_bind {A B : Type} (f : A → Async B) (p : Async A) : Async B :=
  match p with
  | Ret a => f a
  | Throw e => Throw e
  | Fetch url init k => Fetch url init (λ o, Async_bind f (k o))
  end.

#[global] Instance Async_mbind : MBind Async := @Async_bind.
#[global] Instance Async_mret : MRet Async := @Ret.

Definition lift {A : Type} (c : Completion A) : Async A :=
  match c with
  | Normal a => Ret a
  | Abrupt e => Throw e
  end.

(** [await fetch(url, init)]. *)
Definition fetch (url : string) (init : RequestInit) : Async Response :=
  Fetch url init (λ o,
    match o with
    | Resolved r => Ret r
    | Rejected e => Throw e
    end).

(** [await response.json()], which calls no [fetch]. *)
Definition json (r : Response) : Completion JsValue :=
  match json_body r with
  | Some v => Normal v
  | None => Abrupt SyntaxError
  end.

(** Running a program against a transport: the requests issued, in
    order, and the completion. *)
Fixpoint run {A : Type} (net : string → RequestInit → FetchOutcome)
    (p : Async A) : list (string * RequestInit) * Completion A :=
  match p with
  | Ret a => ([], Normal a)
  | Throw e => ([], Abrupt e)
  | Fetch url init k =>
      let '(reqs, c) := run net (k (net url init)) in
      ((url, init) :: reqs, c)
  end.

Definition requests {A : Type} (net : string → RequestInit → FetchOutcome)
    (p : Async A) : list (string * RequestInit) := (run net p).1.

Definition outcome {A : Type} (net : string → RequestInit → FetchOutcome)
    (p : Async A) : Completion A := (run net p).2.

End JS.

(** ** The client ([src/types.ts], [src/client.ts]) *)

Module Done.
Import JS.

(** *** types.ts *)

Inductive MessageStatus : Type :=
  | CREATED | QUEUED | DELIVER | SENT | RETRY | DLQ | ARCHIVED.

(** The string value of a member of the enum. *)
Definition MessageStatus_value (s : MessageStatus) : string :=
  match s with
  | CREATED => "CREATED"
  | QUEUED => "QUEUED"
  | DELIVER => "DELIVER"
  | SENT => "SENT"
  | RETRY => "RETRY"
  | DLQ => "DLQ"
  | ARCHIVED => "ARCHIVED"
  end.

Record DoneClientConfig : Type := {
  baseUrl : string;
  authToken : string
}.

(** [delay?: string | Date]. *)
Inductive Delay : Type :=
  | DelayString (s : string)
  | DelayDate (d : JsDate).

Record SendMessageOptions : Type := {
  delay : option Delay;
  notBefore : option JsDate;
  headers : option (gmap string string);
  maxAttempts : option Z;
  failureCallback : option string
}.

Record SendMessageResponse : Type := {
  messageId : JsValue;
  scheduledAt : JsDate
}.

(** *** client.ts *)

Record DoneClient : Type := { config : DoneClientConfig }.

(** [constructor(config) { this.config = config; }] *)
Definition constructor (config : DoneClientConfig) : DoneClient :=
  {| config := config |}.

(** [static create(baseUrl, authToken)] *)
Definition create (baseUrl authToken : string) : DoneClient :=
  constructor {| baseUrl := baseUrl; authToken := authToken |}.

(** [options?.f]: [undefined] when [options] is. *)
Definition opt_chain {A : Type} (options : option SendMessageOptions)
    (f : SendMessageOptions → option A) : option A :=
  options ≫= f.

(** Lines 22 to 45 of [sendMessage]: the header record with the two
    fixed headers and the control headers, written in the order of the
    source. [toISOString] throws on an invalid Date. *)
Definition control_headers (this : DoneClient)
    (options : option SendMessageOptions) : Completion (gmap string string) :=
  let headers : gmap string string :=
    <["Content-Type" := "application/json"]>
      {["Authorization" := "Bearer " +:+ authToken (config this)]} in
  headers ←
    match opt_chain options delay with
    | Some (DelayString s) =>
        if string_truthy s then Normal (<["Done-Delay" := s]> headers)
        else Normal headers
    | Some (DelayDate d) =>
        iso ← toISOString d; Normal (<["Done-Delay" := iso]> headers)
    | None => Normal headers
    end;
  headers ←
    match opt_chain options notBefore with
    | Some d => iso ← toISOString d; Normal (<["Done-Not-Before" := iso]> headers)
    | None => Normal headers
    end;
  let headers :=
    match opt_chain options maxAttempts with
    | Some n =>
        if number_truthy n then <["Done-Max-Attempts" := Number_toString n]> headers
        else headers
    | None => headers
    end in
  let headers :=
    match opt_chain options failureCallback with
    | Some s =>
        if string_truthy s then <["Done-Failure-Callback" := s]> headers
        else headers
    | None => headers
    end in
  Normal headers.

(** Lines 47 to 51: the loop over [Object.entries(options.headers)], a
    fold over the entries that writes into the same record. The order of
    the entries does not matter to the record it leaves, as the names
    [Done-K] of distinct keys [K] are distinct
    ([custom_entries_any_order] below). *)
Definition custom_headers (options : option SendMessageOptions)
    (headers : gmap string string) : gmap string string :=
  match opt_chain options Done.headers with
  | Some custom =>
      map_fold (λ key value headers, <["Done-" +:+ key := value]> headers)
        headers custom
  | None => headers
  end.

(** Lines 22 to 51. *)
Definition sendMessage_headers (this : DoneClient)
    (options : option SendMessageOptions) : Completion (gmap string string) :=
  headers ← control_headers this options;
  Normal (custom_headers options headers).

(** Lines 53 to 60: [fetchOptions], with a [body] only when the argument
    is truthy; [JSON.stringify] throws on some bodies. A [body] that is
    [undefined] is no body. *)
Definition sendMessage_fetchOptions (headers : gmap string string)
    (body : JsValue) : Completion RequestInit :=
  let fetchOptions :=
    {| req_method := Some "POST"; req_headers := headers; req_body := None |} in
  if ToBoolean body then
    text ← JSON_stringify body;
    Normal {| req_method := req_method fetchOptions;
              req_headers := req_headers fetchOptions;
              req_body := text |}
  else Normal fetchOptions.

(** The protocol failure of lines 65, 83 and 104. *)
Definition failure (label : string) (response : Response) : JsError :=
  Error (label +:+ ": " +:+ Number_toString (status response)
         +:+ " " +:+ statusText response).

Section WithHost.
Context (host : Host).

(** Lines 64 to 72 of [sendMessage]: what is made of the response. *)
Definition sendMessage_response (response : Response)
  : Completion SendMessageResponse :=
  if negb (ok response) then
    Abrupt (failure "Failed to send message" response)
  else
    result ← json response;
    id ← Get result "messageId";
    at_ ← Get result "scheduledAt";
    date ← new_Date host at_;
    Normal {| messageId := id; scheduledAt := date |}.

(** An omitted [body] is [JUndefined], omitted [options] are [None]. *)
Definition sendMessage (this : DoneClient) (callbackUrl : string)
    (body : JsValue) (options : option SendMessageOptions)
  : Async SendMessageResponse :=
  headers ← lift (sendMessage_headers this options);
  fetchOptions ← lift (sendMessage_fetchOptions headers body);
  response ← fetch (baseUrl (config this) +:+ "/v1/" +:+ callbackUrl) fetchOptions;
  lift (sendMessage_response response).

(** [x ? new Date(x) : undefined] *)
Definition optional_Date (x : JsValue) : Completion JsValue :=
  if ToBoolean x then date ← new_Date host x; Normal (JDateV date)
  else Normal JUndefined.

(** The object literal of lines 87 to 93 of [getMessage]. *)
Definition getMessage_result (data : JsValue) : Completion JsValue :=
  let props := spread data in
  createdAt ← Get data "createdAt";
  date ← new_Date host createdAt;
  let props := obj_set "createdAt" (JDateV date) props in
  updatedAt ← Get data "updatedAt";
  date ← new_Date host updatedAt;
  let props := obj_set "updatedAt" (JDateV date) props in
  scheduledAt ← Get data "scheduledAt";
  date ← new_Date host scheduledAt;
  let props := obj_set "scheduledAt" (JDateV date) props in
  lastAttemptAt ← Get data "lastAttemptAt";
  date ← optional_Date lastAttemptAt;
  let props := obj_set "lastAttemptAt" date props in
  Normal (JObj props).

(** Lines 82 to 93. *)
Definition getMessage_response (response : Response) : Completion JsValue :=
  if negb (ok response) then
    Abrupt (failure "Failed to get message" response)
  else
    data ← json response;
    getMessage_result data.

Definition getMessage (this : DoneClient) (messageId : string) : Async JsValue :=
  response ← fetch (baseUrl (config this) +:+ "/v1/" +:+ messageId)
    {| req_method := None;
       req_headers := {["Authorization" := "Bearer " +:+ authToken (config this)]};
       req_body := None |};
  lift (getMessage_response response).

(** The arrow function of lines 108 to 112 of [getMessagesByStatus]. *)
Definition status_info (item : JsValue) : Completion JsValue :=
  let props := spread item in
  scheduledAt ← Get item "scheduledAt";
  date ← new_Date host scheduledAt;
  let props := obj_set "scheduledAt" (JDateV date) props in
  lastAttemptAt ← Get item "lastAttemptAt";
  date ← optional_Date lastAttemptAt;
  let props := obj_set "lastAttemptAt" date props in
  Normal (JObj props).

(** [items.map(f)], left to right, stopping at the first throw. *)
Fixpoint Array_map (f : JsValue → Completion JsValue) (items : list JsValue)
  : Completion (list JsValue) :=
  match items with
  | [] => Normal []
  | x :: rest => y ← f x; ys ← Array_map f rest; Normal (y :: ys)
  end.

(** [data.map(...)]: a value parsed from JSON has a [map] method only
    when it is an array. *)
Definition getMessagesByStatus_result (data : JsValue) : Completion (list JsValue) :=
  match data with
  | JArr items => Array_map status_info items
  | _ => Abrupt TypeError
  end.

(** Lines 103 to 112. *)
Definition getMessagesByStatus_response (response : Response)
  : Completion (list JsValue) :=
  if negb (ok response) then
    Abrupt (failure "Failed to get messages by status" response)
  else
    data ← json response;
    getMessagesByStatus_result data.

Definition getMessagesByStatus (this : DoneClient) (status : MessageStatus)
  : Async (list JsValue) :=
  response ← fetch
    (baseUrl (config this) +:+ "/v1/by-status/" +:+ MessageStatus_value status)
    {| req_method := None;
       req_headers := {["Authorization" := "Bearer " +:+ authToken (config this)]};
       req_body := None |};
  lift (getMessagesByStatus_response response).
End WithHost.

End Done.

(** * Properties *)

Import JS Done.

(** ** Auxiliary definitions of the statements *)

(** A host whose [Date.parse] knows the standard format only, and whose
    [Date.prototype.toString] prints the ISO form; the examples run on
    it. *)
Definition strict_host : Host :=
  {| host_parse := λ _, InvalidDate;
     host_Date_toString := λ d,
       match toISOString d with
       | Normal s => s
       | Abrupt _ => "Invalid Date"
       end |}.

(** A transport that answers every request with the response [r]. *)
Definition respond (r : Response) : string → RequestInit → FetchOutcome :=
  λ _ _, Resolved r.

(** The completion is normal: the evaluation did not throw. *)
Definition returns {A : Type} (c : Completion A) : bool :=
  match c with
  | Normal _ => true
  | Abrupt _ => false
  end.

(** [JSON.stringify] does not throw on the body of the call; line 58
    does not call it on a falsy body. *)
Definition body_serializes (body : JsValue) : bool :=
  negb (ToBoolean body) || returns (JSON_stringify body).


(** [new Date(o.k)] does not throw on the object with the properties
    [props]; neither does [o.k ? new Date(o.k) : undefined]. *)
Definition converts (host : Host) (props : list (string * JsValue))
    (k : string) : bool :=
  returns (new_Date host (default JUndefined (assoc k props))).

Definition optional_converts (host : Host) (props : list (string * JsValue))
    (k : string) : bool :=
  returns (optional_Date host (default JUndefined (assoc k props))).

(** The conversions of [getMessage], and of an entry of
    [getMessagesByStatus], do not throw. *)
Definition message_converts (host : Host) (props : list (string * JsValue)) : bool :=
  converts host props "createdAt" && converts host props "updatedAt"
  && converts host props "scheduledAt" && optional_converts host props "lastAttemptAt".

Definition entry_converts (host : Host) (props : list (string * JsValue)) : bool :=
  converts host props "scheduledAt" && optional_converts host props "lastAttemptAt".

Definition valid_Date (d : JsDate) : bool :=
  match d with
  | InvalidDate => false
  | DateAt _ => true
  end.

(** No Date among the options is an invalid Date. *)
Definition dates_valid (options : option SendMessageOptions) : bool :=
  match opt_chain options delay with
  | Some (DelayDate d) => valid_Date d
  | _ => true
  end
  && match opt_chain options notBefore with
     | Some d => valid_Date d
     | None => true
     end.

(** The caller's custom headers have no entry under the key [K]. *)
Definition no_custom (options : option SendMessageOptions) (K : string) : Prop :=
  ∀ custom, opt_chain options headers = Some custom → custom !! K = None.

(** The client, the body and the responses of the test suite. *)
Definition test_client : DoneClient := create "https://api.example.com" "test-token".

Definition enqueued : Response :=
  {| status := 200; statusText := "OK";
     json_body := Some (JObj [("messageId", JStr "msg-123");
                              ("scheduledAt", JStr "2024-01-01T12:00:00Z")]) |}.

Definition test_body : JsValue := JObj [("test", JStr "data")].

Definition custom_only (custom : gmap string string) : SendMessageOptions :=
  {| delay := None; notBefore := None; headers := Some custom;
     maxAttempts := None; failureCallback := None |}.

(** The options of the "all options" test. *)
Definition all_options : SendMessageOptions :=
  {| delay := None;
     notBefore := Some (DateAt 1704103200000);
     headers := Some {["Custom-Header" := "custom-value"]};
     maxAttempts := Some 5;
     failureCallback := Some "https://fail.example.com" |}.

(** What the record of [control_headers] holds under each name, read off
    lines 22 to 45 ([control_headers_lookup] proves it of the record). *)
Definition control_value (this : DoneClient) (options : option SendMessageOptions)
    (name : string) : option string :=
  if decide (name = "Authorization") then Some ("Bearer " +:+ authToken (config this))
  else if decide (name = "Content-Type") then Some "application/json"
  else if decide (name = "Done-Delay") then
    match opt_chain options delay with
    | Some (DelayString s) => if string_truthy s then Some s else None
    | Some (DelayDate d) =>
        match toISOString d with Normal iso => Some iso | Abrupt _ => None end
    | None => None
    end
  else if decide (name = "Done-Not-Before") then
    match opt_chain options notBefore with
    | Some d => match toISOString d with Normal iso => Some iso | Abrupt _ => None end
    | None => None
    end
  else if decide (name = "Done-Max-Attempts") then
    match opt_chain options maxAttempts with
    | Some n => if number_truthy n then Some (Number_toString n) else None
    | None => None
    end
  else if decide (name = "Done-Failure-Callback") then
    match opt_chain options failureCallback with
    | Some s => if string_truthy s then Some s else None
    | None => None
    end
  else None.

(** The response of the error test; its body is not JSON text. *)
Definition bad_request : Response :=
  {| status := 400; statusText := "Bad Request"; json_body := None |}.

(** The response of the [getMessage] test. *)
Definition message_props : list (string * JsValue) :=
  [("id", JStr "msg-123");
   ("callbackUrl", JStr "https://example.com/webhook");
   ("body", JObj [("test", JStr "data")]);
   ("status", JStr "QUEUED");
   ("attempts", JNum 0);
   ("maxAttempts", JNum 3);
   ("createdAt", JStr "2024-01-01T12:00:00Z");
   ("updatedAt", JStr "2024-01-01T12:00:00Z");
   ("scheduledAt", JStr "2024-01-01T12:05:00Z")].

Definition message_found : Response :=
  {| status := 200; statusText := "OK"; json_body := Some (JObj message_props) |}.

(** The response of the [getMessagesByStatus] test. *)
Definition queued_items : list JsValue :=
  [JObj [("id", JStr "msg-1"); ("status", JStr "QUEUED"); ("attempts", JNum 0);
         ("scheduledAt", JStr "2024-01-01T12:00:00Z")];
   JObj [("id", JStr "msg-2"); ("status", JStr "QUEUED"); ("attempts", JNum 1);
         ("scheduledAt", JStr "2024-01-01T12:00:00Z");
         ("lastAttemptAt", JStr "2024-01-01T11:00:00Z")]].

Definition queued_found : Response :=
  {| status := 200; statusText := "OK"; json_body := Some (JArr queued_items) |}.

(** A value parsed from JSON that is an object. *)
Definition is_object (v : JsValue) : Prop := ∃ props, v = JObj props.

(** The ISO string of a valid Date: the form [toISOString] writes. *)
Definition canonical_iso (s : string) : Prop :=
  ∃ t, Z.abs t ≤ maxTime ∧ toISOString (DateAt t) = Normal s.

(** The response to an enqueue whose timestamp is in that form. *)
Definition enqueued_canonical : Response :=
  {| status := 200; statusText := "OK";
     json_body := Some (JObj [("messageId", JStr "msg-123");
                              ("scheduledAt", JStr "2024-01-01T12:00:00.000Z")]) |}.

(** A transport that rejects every request with [e]. *)
Definition refuse (e : JsError) : string → RequestInit → FetchOutcome :=
  λ _ _, Rejected e.

(** The options with every falsy option taken out: an empty string
    [delay] or [failureCallback], a [maxAttempts] of zero. *)
Definition drop_falsy (o : SendMessageOptions) : SendMessageOptions :=
  {| delay := match delay o with
              | Some (DelayString s) => if string_truthy s then delay o else None
              | d => d
              end;
     notBefore := notBefore o;
     headers := headers o;
     maxAttempts := match maxAttempts o with
                    | Some n => if number_truthy n then Some n else None
                    | None => None
                    end;
     failureCallback := match failureCallback o with
                        | Some s => if string_truthy s then Some s else None
                        | None => None
                        end |}.

(** The header names [sendMessage] writes by itself. *)
Definition own_header_names : list string :=
  ["Authorization"; "Content-Type"; "Done-Delay"; "Done-Not-Before";
   "Done-Max-Attempts"; "Done-Failure-Callback"].

(** ** Values *)

Lemma JsValue_nested_ind (P : JsValue → Prop) :
  P JUndefined → P JNull → (∀ b, P (JBool b)) → (∀ n, P (JNum n)) →
  (∀ n, P (JBigInt n)) → (∀ s, P (JStr s)) → (∀ d, P (JDateV d)) →
  (∀ items, Forall P items → P (JArr items)) →
  (∀ props, Forall (λ kv, P kv.2) props → P (JObj props)) →
  ∀ v, P v.
Proof.
  intros Hundef Hnull Hbool Hnum Hbig Hstr Hdate Harr Hobj.
  fix IH 1. intros [| |b|n|n|s|d|items|props].
  - exact Hundef.
  - exact Hnull.
  - apply Hbool.
  - apply Hnum.
  - apply Hbig.
  - apply Hstr.
  - apply Hdate.
  - apply Harr. induction items as [|x rest IHrest]; constructor;
      [apply IH | exact IHrest].
  - apply Hobj. induction props as [|[k x] rest IHrest]; constructor;
      [apply IH | exact IHrest].
Qed.

Lemma Completion_mapM_throws {A B : Type} (f : A → Completion B) l e :
  Completion_mapM f l = Abrupt e → ∃ x, x ∈ l ∧ f x = Abrupt e.
Proof.
  induction l as [|x rest IH]; cbn; [discriminate|].
  destruct (f x) as [y|e'] eqn:Hx; cbn.
  - destruct (Completion_mapM f rest) as [ys|e'']; cbn; [discriminate|].
    intros [= <-]. destruct IH as (x' & Hin & Hx'); [done|].
    exists x'. split; [by apply list_elem_of_further | done].
  - intros [= <-]. exists x. split; [apply list_elem_of_here | done].
Qed.

Lemma ToString_throws host v e : ToString host v = Abrupt e → e = TypeError.
Proof.
  revert e. induction v as [| |b|n|n|s|d|items IH|props _] using JsValue_nested_ind;
    intros e; cbn; try discriminate.
  - destruct (Completion_mapM _ items) as [elements|e'] eqn:Hitems; cbn;
      [discriminate|].
    intros [= ->]. apply Completion_mapM_throws in Hitems as (x & Hin & Hx).
    rewrite Forall_forall in IH. specialize (IH x Hin e).
    destruct x; try discriminate; by apply IH.
  - destruct (assoc "toString" props); [by intros [= <-] | discriminate].
Qed.

Lemma new_Date_throws host v e : new_Date host v = Abrupt e → e = TypeError.
Proof.
  destruct v as [| |b|n|n|s|d|items|props]; cbn [new_Date]; try discriminate.
  - by intros [= <-].
  - destruct (ToString host (JArr items)) as [s|e'] eqn:Hs; cbn; [discriminate|].
    intros [= <-]. by eapply ToString_throws.
  - destruct (ToString host (JObj props)) as [s|e'] eqn:Hs; cbn; [discriminate|].
    intros [= <-]. by eapply ToString_throws.
Qed.

Lemma optional_Date_throws host v e :
  optional_Date host v = Abrupt e → e = TypeError.
Proof.
  unfold optional_Date. destruct (ToBoolean v); [|discriminate].
  destruct (new_Date host v) as [d|e'] eqn:Hd; cbn; [discriminate|].
  intros [= <-]. by eapply new_Date_throws.
Qed.

Lemma new_Date_own_toString host props :
  is_Some (assoc "toString" props) → new_Date host (JObj props) = Abrupt TypeError.
Proof. intros [v Hv]. cbn. by rewrite Hv. Qed.

Lemma JSON_stringify_throws v e : JSON_stringify v = Abrupt e → e = TypeError.
Proof.
  unfold JSON_stringify. revert e.
  induction v as [| |b|n|n|s|d|items IH|props IH] using JsValue_nested_ind;
    intros e; cbn; try discriminate.
  - by intros [= <-].
  - by destruct (toISOString d).
  - destruct (Completion_mapM _ items) as [texts|e'] eqn:Hitems; cbn;
      [discriminate|].
    intros [= ->]. apply Completion_mapM_throws in Hitems as (x & Hin & Hx).
    rewrite Forall_forall in IH. apply (IH x Hin).
    destruct (SerializeJSONProperty x); cbn in Hx; [discriminate Hx | congruence].
  - destruct (Completion_mapM _ props) as [members|e'] eqn:Hprops; cbn;
      [discriminate|].
    intros [= ->]. apply Completion_mapM_throws in Hprops as ([k x] & Hin & Hx).
    rewrite Forall_forall in IH. apply (IH (k, x) Hin). cbn.
    destruct (SerializeJSONProperty x); cbn in Hx; [discriminate Hx | congruence].
Qed.

Lemma stringify_truthy body o :
  ToBoolean body = true → JSON_stringify body = Normal o → is_Some o.
Proof.
  unfold JSON_stringify.
  destruct body as [| |b|n|n|s|d|items|props]; cbn; try discriminate;
    try (intros _ [= <-]; eauto; fail).
  - intros _. destruct (toISOString d); intros [= <-]; eauto.
  - intros _. destruct (Completion_mapM _ items); cbn;
      [intros [= <-]; eauto | discriminate].
  - intros _. destruct (Completion_mapM _ props); cbn;
      [intros [= <-]; eauto | discriminate].
Qed.

(** ** The header record *)

Lemma custom_fold_union (custom hs : gmap string string) :
  map_fold (λ key value headers, <["Done-" +:+ key := value]> headers) hs custom
  = kmap (String.app "Done-") custom ∪ hs.
Proof.
  apply (map_fold_weak_ind (λ r m, r = kmap (String.app "Done-") m ∪ hs)).
  - by rewrite kmap_empty, (left_id_L ∅ (∪)).
  - intros K V m r Hfresh ->.
    by rewrite (kmap_insert (String.app "Done-")), insert_union_l.
Qed.

(** The loop of lines 47 to 51 leaves the same record whatever the order
    in which [Object.entries] lists the entries of the custom headers. *)
Lemma custom_entries_any_order (custom hs : gmap string string)
    (entries : list (string * string)) :
  entries ≡ₚ map_to_list custom →
  foldl (λ headers '(key, value), <["Done-" +:+ key := value]> headers) hs entries
  = map_fold (λ key value headers, <["Done-" +:+ key := value]> headers) hs custom.
Proof.
  intros Hperm. rewrite custom_fold_union.
  assert (NoDup entries.*1) as Hnodup
    by (rewrite Hperm; apply NoDup_fst_map_to_list).
  rewrite <- (list_to_map_to_list custom).
  rewrite <- (list_to_map_proper _ _ Hnodup Hperm).
  clear Hperm. revert hs.
  induction entries as [|[K V] rest IH]; intros hs; csimpl.
  - by rewrite kmap_empty, (left_id_L ∅ (∪)).
  - apply NoDup_cons in Hnodup as [Hfresh Hnodup].
    rewrite IH by done.
    rewrite (kmap_insert (String.app "Done-")), <- insert_union_l.
    symmetry. apply insert_union_r.
    apply lookup_kmap_None; [apply _|].
    intros K' ->%(inj (String.app "Done-")).
    by apply not_elem_of_list_to_map_1.
Qed.

Lemma custom_headers_prefixed options custom hs K V :
  opt_chain options headers = Some custom →
  custom !! K = Some V →
  custom_headers options hs !! ("Done-" +:+ K) = Some V.
Proof.
  intros Hc HK. unfold custom_headers. rewrite Hc, custom_fold_union.
  apply lookup_union_Some_l. by rewrite (lookup_kmap (String.app "Done-")).
Qed.

Lemma custom_headers_other options hs name :
  (∀ K, name = "Done-" +:+ K → no_custom options K) →
  custom_headers options hs !! name = hs !! name.
Proof.
  intros Hname. unfold custom_headers.
  destruct (opt_chain options headers) as [custom|] eqn:Hc; [|done].
  rewrite custom_fold_union. apply lookup_union_r.
  apply lookup_kmap_None; [apply _|]. intros K ->. by apply (Hname K).
Qed.

Lemma control_headers_valid this options :
  dates_valid options = true → ∃ hs, control_headers this options = Normal hs.
Proof.
  unfold dates_valid, control_headers. intros [Hd Hn]%andb_prop.
  destruct (opt_chain options delay) as [[s|[|t]]|];
    destruct (opt_chain options notBefore) as [[|t']|]; try done;
    cbn; try destruct (string_truthy s); cbn;
    try destruct (civil_from_days _) as [[??]?]; cbn;
    try destruct (civil_from_days (Day t')) as [[??]?]; cbn; eauto.
Qed.

(** ** Running the operations *)

Lemma run_fetch_lift {A : Type} net u i (h : Response → Completion A) :
  run net (fetch u i ≫= λ r, lift (h r))
  = ([(u, i)], match net u i with
               | Resolved r => h r
               | Rejected e => Abrupt e
               end).
Proof.
  unfold fetch, mbind, Async_mbind. cbn.
  destruct (net u i) as [r|e]; cbn; [destruct (h r)|]; reflexivity.
Qed.

Lemma sendMessage_run host net this callbackUrl body options :
  run net (sendMessage host this callbackUrl body options)
  = match sendMessage_headers this options with
    | Normal hs =>
        match sendMessage_fetchOptions hs body with
        | Normal init =>
            let u := baseUrl (config this) +:+ "/v1/" +:+ callbackUrl in
            ([(u, init)], match net u init with
                          | Resolved r => sendMessage_response host r
                          | Rejected e => Abrupt e
                          end)
        | Abrupt e => ([], Abrupt e)
        end
    | Abrupt e => ([], Abrupt e)
    end.
Proof.
  unfold sendMessage. destruct (sendMessage_headers this options) as [hs|e]; [|done].
  cbn. destruct (sendMessage_fetchOptions hs body) as [init|e]; [|done].
  apply run_fetch_lift.
Qed.

(** The [body] member of the request of a call whose body is [body]. *)
Lemma fetchOptions_serializes hs body :
  body_serializes body = true →
  ∃ init, sendMessage_fetchOptions hs body = Normal init
    ∧ req_method init = Some "POST"
    ∧ req_headers init = hs
    ∧ (ToBoolean body = true →
       ∃ text, JSON_stringify body = Normal (Some text) ∧ req_body init = Some text)
    ∧ (ToBoolean body = false → req_body init = None).
Proof.
  unfold body_serializes, sendMessage_fetchOptions.
  destruct (ToBoolean body) eqn:Hb; cbn.
  - destruct (JSON_stringify body) as [o|e] eqn:Ho; [|discriminate]. intros _.
    destruct (stringify_truthy body o Hb Ho) as [text ->]. cbn.
    eexists. do 3 (split; [reflexivity|]).
    split; [intros _; by exists text | discriminate].
  - intros _. eexists. do 3 (split; [reflexivity|]).
    split; [discriminate | done].
Qed.

Lemma fetchOptions_throws hs body :
  body_serializes body = false → sendMessage_fetchOptions hs body = Abrupt TypeError.
Proof.
  unfold body_serializes, sendMessage_fetchOptions.
  destruct (ToBoolean body); cbn; [|discriminate].
  destruct (JSON_stringify body) as [o|e] eqn:Ho; [discriminate|].
  by apply JSON_stringify_throws in Ho as ->.
Qed.

Lemma fetchOptions_headers hs body init :
  sendMessage_fetchOptions hs body = Normal init → req_headers init = hs.
Proof.
  unfold sendMessage_fetchOptions. destruct (ToBoolean body); [|by intros [= <-]].
  destruct (JSON_stringify body); cbn; [by intros [= <-] | discriminate].
Qed.

(** The request of a call whose Date options are valid and whose body
    [JSON.stringify] accepts. *)
Lemma sendMessage_requests host net this callbackUrl body options :
  dates_valid options = true →
  body_serializes body = true →
  ∃ ctl init,
    control_headers this options = Normal ctl
    ∧ requests net (sendMessage host this callbackUrl body options)
      = [(baseUrl (config this) +:+ "/v1/" +:+ callbackUrl, init)]
    ∧ req_method init = Some "POST"
    ∧ req_headers init = custom_headers options ctl
    ∧ (ToBoolean body = true →
       ∃ text, JSON_stringify body = Normal (Some text) ∧ req_body init = Some text)
    ∧ (ToBoolean body = false → req_body init = None).
Proof.
  intros [ctl Hctl]%(control_headers_valid this) Hbody.
  destruct (fetchOptions_serializes (custom_headers options ctl) body Hbody)
    as (init & Hinit & Hm & Hh & Hb).
  exists ctl, init. split; [done|]. split; [|done].
  unfold requests. rewrite sendMessage_run. unfold sendMessage_headers.
  rewrite Hctl. cbn. by rewrite Hinit.
Qed.

(** The requests of any call: none, or one with the headers of lines 22
    to 51. *)
Lemma sendMessage_request_headers host net this callbackUrl body options u init :
  (u, init) ∈ requests net (sendMessage host this callbackUrl body options) →
  ∃ ctl, control_headers this options = Normal ctl
    ∧ req_headers init = custom_headers options ctl.
Proof.
  unfold requests. rewrite sendMessage_run. unfold sendMessage_headers.
  destruct (control_headers this options) as [ctl|e]; cbn;
    [|by intros ?%elem_of_nil].
  destruct (sendMessage_fetchOptions _ body) as [init'|e] eqn:Hinit; cbn;
    [|by intros ?%elem_of_nil].
  intros [= -> ->]%list_elem_of_singleton.
  exists ctl. split; [done|]. by eapply fetchOptions_headers.
Qed.

Lemma control_headers_lookup this options ctl name :
  control_headers this options = Normal ctl →
  ctl !! name = control_value this options name.
Proof.
  unfold control_headers, control_value. intros H.
  destruct (opt_chain options delay) as [[s|d]|];
    [destruct (string_truthy s)|destruct (toISOString d) as [iso|]; [|done] |];
    (destruct (opt_chain options notBefore) as [d'|];
      [destruct (toISOString d') as [iso'|]; [|done] |]);
    (destruct (opt_chain options maxAttempts) as [n|];
      [destruct (number_truthy n)|]);
    (destruct (opt_chain options failureCallback) as [s'|];
      [destruct (string_truthy s')|]);
    cbn in H; injection H as <-;
    repeat case_decide; subst; by simplify_map_eq.
Qed.

Lemma final_header_control host net this callbackUrl body options name :
  dates_valid options = true →
  body_serializes body = true →
  (∀ K, name = "Done-" +:+ K → no_custom options K) →
  ∃ init,
    requests net (sendMessage host this callbackUrl body options)
    = [(baseUrl (config this) +:+ "/v1/" +:+ callbackUrl, init)]
    ∧ req_headers init !! name = control_value this options name.
Proof.
  intros Hv Hbody Hname.
  destruct (sendMessage_requests host net this callbackUrl body options Hv Hbody)
    as (ctl & init & Hctl & Hreq & _ & Hh & _).
  exists init. split; [exact Hreq|].
  rewrite Hh, custom_headers_other by done.
  by apply control_headers_lookup.
Qed.

(** ** Enqueue: the request *)




(** The other input on which C1 fails as stated: on a BigInt body,
    nested or not, [JSON.stringify] throws and no request is issued. *)
Example sendMessage_BigInt_body_throws :
  run (respond enqueued)
    (sendMessage strict_host test_client "webhook-url"
       (JObj [("count", JBigInt 10)]) None)
  = ([], Abrupt TypeError).
Proof. reflexivity. Qed.

(** C2, as amended. For every call of [sendMessage] whose options hold
    no invalid Date, whose body [JSON.stringify] accepts and whose
    custom headers have no key [Delay], the one request carries under
    [Done-Delay]: a non-empty string delay
    verbatim; the ISO-8601 serialization of a Date delay; and nothing
    when there is no delay option or the delay is the empty string. *)
Theorem sendMessage_delay_header host net this callbackUrl body options :
  dates_valid options = true →
  body_serializes body = true →
  no_custom options "Delay" →
  ∃ init,
    requests net (sendMessage host this callbackUrl body options)
    = [(baseUrl (config this) +:+ "/v1/" +:+ callbackUrl, init)]
    ∧ (∀ s, opt_chain options delay = Some (DelayString s) → s ≠ "" →
         req_headers init !! "Done-Delay" = Some s)
    ∧ (∀ d iso, opt_chain options delay = Some (DelayDate d) →
         toISOString d = Normal iso →
         req_headers init !! "Done-Delay" = Some iso)
    ∧ (opt_chain options delay = None ∨ opt_chain options delay = Some (DelayString "") →
         req_headers init !! "Done-Delay" = None).
Proof.
  intros Hv Hbody Hfree.
  destruct (final_header_control host net this callbackUrl body options
              "Done-Delay" Hv Hbody) as (init & Hreq & Hh).
  { intros K HK. by apply (inj (String.app "Done-") "Delay") in HK as <-. }
  exists init. split; [exact Hreq|]. rewrite Hh. unfold control_value. cbn.
  repeat split.
  - intros s -> Hs. unfold string_truthy.
    by destruct (String.eqb_spec s "").
  - by intros d iso -> ->.
  - by intros [-> | ->].
Qed.

Lemma sendMessage_delay_header_witness :
  ∃ init,
    requests (respond enqueued)
      (sendMessage strict_host test_client "webhook-url" JUndefined
         (Some {| delay := Some (DelayDate (DateAt 1704121200000));
                  notBefore := None;
                  headers := Some {["Custom-Header" := "custom-value"]};
                  maxAttempts := None; failureCallback := None |}))
    = [("https://api.example.com/v1/webhook-url", init)]
    ∧ req_headers init !! "Done-Delay" = Some "2024-01-01T15:00:00.000Z".
Proof.
  destruct (sendMessage_delay_header strict_host
              (respond enqueued)
              test_client "webhook-url" JUndefined
         (Some {| delay := Some (DelayDate (DateAt 1704121200000));
                  notBefore := None;
                  headers := Some {["Custom-Header" := "custom-value"]};
                  maxAttempts := None; failureCallback := None |}) eq_refl eq_refl)
    as (init & Hreq & _ & Hdate & _).
  { intros custom [= <-]. reflexivity. }
  exists init. split; [exact Hreq|].
  by apply (Hdate (DateAt 1704121200000)).
Defined.

(** The delay test: [delay: "5m"] alone is sent as [Done-Delay: 5m]. *)
Example sendMessage_delay_5m :
  (λ '(u, init), req_headers init !! "Done-Delay") <$>
    requests (respond enqueued)
      (sendMessage strict_host test_client "webhook-url" test_body
         (Some {| delay := Some (DelayString "5m"); notBefore := None;
                  headers := None; maxAttempts := None; failureCallback := None |}))
  = [Some "5m"].
Proof. reflexivity. Qed.

(** C2, counterexample: the string delay [5m] is not what the request
    carries under [Done-Delay] when the custom headers have the key
    [Delay]. *)
Lemma sendMessage_delay_overridden :
  (λ '(u, init), req_headers init !! "Done-Delay") <$>
    requests (respond enqueued)
      (sendMessage strict_host test_client "webhook-url" JUndefined
         (Some {| delay := Some (DelayString "5m"); notBefore := None;
                  headers := Some {["Delay" := "1h"]};
                  maxAttempts := None; failureCallback := None |}))
  = [Some "1h"].
Proof. reflexivity. Qed.

(** The other two inputs on which C2 fails as stated: an empty string
    delay sends no header, and an invalid Date makes [sendMessage] throw
    before any request. *)
Lemma sendMessage_delay_empty_string :
  (λ '(u, init), req_headers init !! "Done-Delay") <$>
    requests (respond enqueued)
      (sendMessage strict_host test_client "webhook-url" JUndefined
         (Some {| delay := Some (DelayString ""); notBefore := None;
                  headers := None; maxAttempts := None; failureCallback := None |}))
  = [None].
Proof. reflexivity. Qed.

Lemma sendMessage_invalid_Date_throws :
  run (respond enqueued)
    (sendMessage strict_host test_client "webhook-url" JUndefined
       (Some {| delay := Some (DelayDate InvalidDate); notBefore := None;
                headers := None; maxAttempts := None; failureCallback := None |}))
  = ([], Abrupt RangeError).
Proof. reflexivity. Qed.

(** ** Enqueue: custom headers *)

(** C3. For every call of [sendMessage] and every entry [K: V] of the
    custom headers, the request carries the header [Done-K] with the
    value [V]; the headers are a record, which has one value per name. *)
Theorem custom_header_forwarded host net this callbackUrl body options
    custom K V u init :
  opt_chain options headers = Some custom →
  custom !! K = Some V →
  (u, init) ∈ requests net (sendMessage host this callbackUrl body options) →
  req_headers init !! ("Done-" +:+ K) = Some V.
Proof.
  intros Hc HK (ctl & _ & ->)%sendMessage_request_headers.
  by eapply custom_headers_prefixed.
Qed.

Lemma custom_header_forwarded_witness :
  ∃ init,
    requests (respond enqueued)
      (sendMessage strict_host test_client "webhook-url" JUndefined
         (Some (custom_only {["Custom-Header" := "custom-value"]})))
    = [("https://api.example.com/v1/webhook-url", init)]
    ∧ req_headers init !! "Done-Custom-Header" = Some "custom-value".
Proof.
  eexists. split; [reflexivity|].
  eapply (custom_header_forwarded strict_host
            (respond enqueued)
            test_client "webhook-url" JUndefined
            (Some (custom_only {["Custom-Header" := "custom-value"]}))
            {["Custom-Header" := "custom-value"]}
            "Custom-Header" "custom-value").
  - reflexivity.
  - reflexivity.
  - apply list_elem_of_singleton. reflexivity.
Defined.

(** C10. The custom headers are written into the header record after
    the fixed and the control headers: the record of the request is the
    control record overwritten by the custom entries. So when a custom
    key [K] has its name [Done-K] already set by a control header (which
    makes [K] one of [Delay], [Not-Before], [Max-Attempts],
    [Failure-Callback]), the request carries the caller's value. (The
    request is there when [JSON.stringify] accepts the body.) *)
Theorem custom_header_overrides_control host net this callbackUrl body options
    ctl custom K V W :
  control_headers this options = Normal ctl →
  ctl !! ("Done-" +:+ K) = Some W →
  opt_chain options headers = Some custom →
  custom !! K = Some V →
  body_serializes body = true →
  ∃ init,
    requests net (sendMessage host this callbackUrl body options)
    = [(baseUrl (config this) +:+ "/v1/" +:+ callbackUrl, init)]
    ∧ req_headers init = kmap (String.app "Done-") custom ∪ ctl
    ∧ req_headers init !! ("Done-" +:+ K) = Some V
    ∧ K ∈ ["Delay"; "Not-Before"; "Max-Attempts"; "Failure-Callback"].
Proof.
  intros Hctl HW Hc HK Hbody.
  destruct (fetchOptions_serializes (custom_headers options ctl) body Hbody)
    as (init & Hinit & _ & Hh & _).
  exists init. split; [|split; [|split]].
  - unfold requests. rewrite sendMessage_run. unfold sendMessage_headers.
    rewrite Hctl. cbn. by rewrite Hinit.
  - rewrite Hh. unfold custom_headers.
    by rewrite Hc, custom_fold_union.
  - rewrite Hh. by eapply custom_headers_prefixed.
  - rewrite (control_headers_lookup this options ctl) in HW by done.
    unfold control_value in HW.
    repeat case_decide; try discriminate;
      match goal with
      | H : "Done-" +:+ K = _ |- _ =>
          apply (inj (String.app "Done-") K) in H as ->
      end; set_solver.
Qed.

Lemma custom_header_overrides_control_witness :
  ∃ init,
    requests (respond enqueued)
      (sendMessage strict_host test_client "webhook-url" test_body
         (Some {| delay := Some (DelayString "5m"); notBefore := None;
                  headers := Some {["Delay" := "1h"]};
                  maxAttempts := None; failureCallback := None |}))
    = [("https://api.example.com/v1/webhook-url", init)]
    ∧ req_headers init !! "Done-Delay" = Some "1h".
Proof.
  destruct (custom_header_overrides_control strict_host (respond enqueued)
              test_client "webhook-url" test_body
              (Some {| delay := Some (DelayString "5m"); notBefore := None;
                       headers := Some {["Delay" := "1h"]};
                       maxAttempts := None; failureCallback := None |})
              (<["Done-Delay" := "5m"]>
                 (<["Content-Type" := "application/json"]>
                    {["Authorization" := "Bearer test-token"]}))
              {["Delay" := "1h"]} "Delay" "1h" "5m")
    as (init & Hreq & _ & Hh & _); [reflexivity..|].
  exists init. split; [exact Hreq | exact Hh].
Defined.

(** ** Enqueue: the delivery policy headers *)

(** C4, as amended. For every call of [sendMessage] whose options hold
    no invalid Date, whose body [JSON.stringify] accepts and whose
    custom headers have none of the keys [Not-Before], [Max-Attempts],
    [Failure-Callback], the one request carries: under [Done-Not-Before]
    the ISO-8601 serialization of [notBefore]; under [Done-Max-Attempts]
    the decimal digits of a [maxAttempts] that is a positive safe
    integer (at most 2^53 - 1); under [Done-Failure-Callback] a
    non-empty [failureCallback] verbatim; and no such header for an
    absent option. *)
Theorem sendMessage_policy_headers host net this callbackUrl body options :
  dates_valid options = true →
  body_serializes body = true →
  no_custom options "Not-Before" →
  no_custom options "Max-Attempts" →
  no_custom options "Failure-Callback" →
  ∃ init,
    requests net (sendMessage host this callbackUrl body options)
    = [(baseUrl (config this) +:+ "/v1/" +:+ callbackUrl, init)]
    ∧ (∀ d iso, opt_chain options notBefore = Some d →
         toISOString d = Normal iso →
         req_headers init !! "Done-Not-Before" = Some iso)
    ∧ (opt_chain options notBefore = None →
         req_headers init !! "Done-Not-Before" = None)
    ∧ (∀ n, opt_chain options maxAttempts = Some n → 0 < n ≤ MAX_SAFE_INTEGER →
         req_headers init !! "Done-Max-Attempts" = Some (Number_toString n))
    ∧ (opt_chain options maxAttempts = None →
         req_headers init !! "Done-Max-Attempts" = None)
    ∧ (∀ s, opt_chain options failureCallback = Some s → s ≠ "" →
         req_headers init !! "Done-Failure-Callback" = Some s)
    ∧ (opt_chain options failureCallback = None →
         req_headers init !! "Done-Failure-Callback" = None).
Proof.
  intros Hv Hbody Hnb Hma Hfc.
  destruct (sendMessage_requests host net this callbackUrl body options Hv Hbody)
    as (ctl & init & Hctl & Hreq & _ & Hh & _).
  exists init. split; [exact Hreq|].
  rewrite Hh.
  rewrite !custom_headers_other;
    try (intros K HK;
         first [ by apply (inj (String.app "Done-") "Not-Before") in HK as <-
               | by apply (inj (String.app "Done-") "Max-Attempts") in HK as <-
               | by apply (inj (String.app "Done-") "Failure-Callback") in HK as <- ]).
  rewrite !(control_headers_lookup this options ctl) by done.
  unfold control_value. cbn.
  repeat split.
  - by intros d iso -> ->.
  - by intros ->.
  - intros n -> Hn. unfold number_truthy.
    by destruct (Z.eqb_spec n 0); [lia|].
  - by intros ->.
  - intros s -> Hs. unfold string_truthy. by destruct (String.eqb_spec s "").
  - by intros ->.
Qed.

Lemma sendMessage_policy_headers_witness :
  ∃ init,
    requests (respond enqueued)
      (sendMessage strict_host test_client "webhook-url" test_body (Some all_options))
    = [("https://api.example.com/v1/webhook-url", init)]
    ∧ req_headers init !! "Done-Not-Before" = Some "2024-01-01T10:00:00.000Z"
    ∧ req_headers init !! "Done-Max-Attempts" = Some "5"
    ∧ req_headers init !! "Done-Failure-Callback" = Some "https://fail.example.com".
Proof.
  destruct (sendMessage_policy_headers strict_host (respond enqueued)
              test_client "webhook-url" test_body (Some all_options) eq_refl eq_refl)
    as (init & Hreq & Hnb & _ & Hma & _ & Hfc & _);
    try (intros custom [= <-]; reflexivity).
  exists init. split; [exact Hreq|]. split; [|split].
  - by apply (Hnb (DateAt 1704103200000)).
  - apply (Hma 5); [reflexivity | compute_done].
  - by apply Hfc.
Defined.

(** C4, counterexample: a present [failureCallback] is not what the
    request carries under [Done-Failure-Callback] when the custom
    headers have the key [Failure-Callback]. *)
Lemma sendMessage_failureCallback_overridden :
  (λ '(u, init), req_headers init !! "Done-Failure-Callback") <$>
    requests (respond enqueued)
      (sendMessage strict_host test_client "webhook-url" test_body
         (Some {| delay := None; notBefore := None;
                  headers := Some {["Failure-Callback" := "https://other.example.com"]};
                  maxAttempts := None;
                  failureCallback := Some "https://fail.example.com" |}))
  = [Some "https://other.example.com"].
Proof. reflexivity. Qed.

(** The other inputs on which C4 fails as stated: an empty
    [failureCallback] sends no header, and an invalid [notBefore] makes
    [sendMessage] throw before any request. (A [maxAttempts] beyond the
    safe integers is written from rounded digits, or with an exponent.) *)
Lemma sendMessage_failureCallback_empty :
  (λ '(u, init), req_headers init !! "Done-Failure-Callback") <$>
    requests (respond enqueued)
      (sendMessage strict_host test_client "webhook-url" test_body
         (Some {| delay := None; notBefore := None; headers := None;
                  maxAttempts := None; failureCallback := Some "" |}))
  = [None].
Proof. reflexivity. Qed.

Lemma sendMessage_invalid_notBefore_throws :
  run (respond enqueued)
    (sendMessage strict_host test_client "webhook-url" test_body
       (Some {| delay := None; notBefore := Some InvalidDate; headers := None;
                maxAttempts := None; failureCallback := None |}))
  = ([], Abrupt RangeError).
Proof. reflexivity. Qed.

(** ** Responses *)

Lemma getMessage_run host net this messageId :
  run net (getMessage host this messageId)
  = let u := baseUrl (config this) +:+ "/v1/" +:+ messageId in
    let init :=
      {| req_method := None;
         req_headers := {["Authorization" := "Bearer " +:+ authToken (config this)]};
         req_body := None |} in
    ([(u, init)], match net u init with
                  | Resolved r => getMessage_response host r
                  | Rejected e => Abrupt e
                  end).
Proof. apply run_fetch_lift. Qed.

Lemma getMessagesByStatus_run host net this st :
  run net (getMessagesByStatus host this st)
  = let u := baseUrl (config this) +:+ "/v1/by-status/" +:+ MessageStatus_value st in
    let init :=
      {| req_method := None;
         req_headers := {["Authorization" := "Bearer " +:+ authToken (config this)]};
         req_body := None |} in
    ([(u, init)], match net u init with
                  | Resolved r => getMessagesByStatus_response host r
                  | Rejected e => Abrupt e
                  end).
Proof. apply run_fetch_lift. Qed.

(** The outcome of an operation whose one request [(u, init)] the
    transport answered with [r]. *)
Lemma sendMessage_outcome host net this callbackUrl body options u init r :
  requests net (sendMessage host this callbackUrl body options) = [(u, init)] →
  net u init = Resolved r →
  outcome net (sendMessage host this callbackUrl body options)
  = sendMessage_response host r.
Proof.
  unfold requests, outcome. rewrite sendMessage_run.
  destruct (sendMessage_headers this options) as [hs|e]; cbn; [|done].
  destruct (sendMessage_fetchOptions hs body) as [init'|e]; cbn; [|done].
  by intros [= <- <-] ->.
Qed.

Lemma getMessage_outcome host net this messageId u init r :
  requests net (getMessage host this messageId) = [(u, init)] →
  net u init = Resolved r →
  outcome net (getMessage host this messageId) = getMessage_response host r.
Proof.
  unfold requests, outcome. rewrite getMessage_run. cbn.
  by intros [= <- <-] ->.
Qed.

Lemma getMessagesByStatus_outcome host net this st u init r :
  requests net (getMessagesByStatus host this st) = [(u, init)] →
  net u init = Resolved r →
  outcome net (getMessagesByStatus host this st)
  = getMessagesByStatus_response host r.
Proof.
  unfold requests, outcome. rewrite getMessagesByStatus_run. cbn.
  by intros [= <- <-] ->.
Qed.

Lemma Get_throws v k e : Get v k = Abrupt e → e = TypeError.
Proof. destruct v; cbn; congruence. Qed.

Lemma bind_throws {A B : Type} (c : Completion A) (f : A → Completion B) e :
  c ≫= f = Abrupt e → c = Abrupt e ∨ ∃ a, c = Normal a ∧ f a = Abrupt e.
Proof.
  destruct c as [a|e']; cbn; [right; by exists a|].
  intros [= ->]. by left.
Qed.

Ltac throws_TypeError H :=
  repeat (apply bind_throws in H as [H|(? & _ & H)];
          [by eauto using Get_throws, new_Date_throws, optional_Date_throws|]);
  discriminate H.

Lemma sendMessage_decode_throws host v e :
  (result ← Normal v;
   id ← Get result "messageId";
   at_ ← Get result "scheduledAt";
   date ← new_Date host at_;
   Normal {| messageId := id; scheduledAt := date |}) = Abrupt e →
  e = TypeError.
Proof. cbn. intros H. throws_TypeError H. Qed.

Lemma status_info_throws host item e :
  status_info host item = Abrupt e → e = TypeError.
Proof. unfold status_info. intros H. throws_TypeError H. Qed.

Lemma getMessage_result_throws host data e :
  getMessage_result host data = Abrupt e → e = TypeError.
Proof. unfold getMessage_result. intros H. throws_TypeError H. Qed.

Lemma Array_map_throws host items e :
  Array_map (status_info host) items = Abrupt e → e = TypeError.
Proof.
  induction items as [|x rest IH]; cbn; [done|].
  destruct (status_info host x) as [y|e'] eqn:Hx; cbn.
  - destruct (Array_map (status_info host) rest) as [ys|e'']; cbn; [done|].
    intros [= <-]. by apply IH.
  - intros [= <-]. by eapply status_info_throws.
Qed.

(** ** Protocol failures *)

(** C6. For each of the three operations and every response [r] that
    answers its request: when the status of [r] is not a success status
    the operation fails with the Error whose message is the label of the
    operation, a colon, the status and the status text; when it is a
    success status the operation fails with no Error of the client. The
    failure is built from the status and the status text alone. *)
Theorem protocol_failure host net this r :
  (∀ callbackUrl body options u init,
     requests net (sendMessage host this callbackUrl body options) = [(u, init)] →
     net u init = Resolved r →
     (ok r = false →
      outcome net (sendMessage host this callbackUrl body options)
      = Abrupt (Error ("Failed to send message: " +:+ Number_toString (status r)
                       +:+ " " +:+ statusText r)))
     ∧ (ok r = true →
        ∀ m, outcome net (sendMessage host this callbackUrl body options)
             ≠ Abrupt (Error m)))
  ∧ (∀ messageId u init,
       requests net (getMessage host this messageId) = [(u, init)] →
       net u init = Resolved r →
       (ok r = false →
        outcome net (getMessage host this messageId)
        = Abrupt (Error ("Failed to get message: " +:+ Number_toString (status r)
                         +:+ " " +:+ statusText r)))
       ∧ (ok r = true →
          ∀ m, outcome net (getMessage host this messageId) ≠ Abrupt (Error m)))
  ∧ (∀ st u init,
       requests net (getMessagesByStatus host this st) = [(u, init)] →
       net u init = Resolved r →
       (ok r = false →
        outcome net (getMessagesByStatus host this st)
        = Abrupt (Error ("Failed to get messages by status: "
                         +:+ Number_toString (status r) +:+ " " +:+ statusText r)))
       ∧ (ok r = true →
          ∀ m, outcome net (getMessagesByStatus host this st) ≠ Abrupt (Error m)))
  ∧ (∀ label r', status r' = status r → statusText r' = statusText r →
       failure label r' = failure label r).
Proof.
  split; [|split; [|split]].
  - intros callbackUrl body options u init Hreq Hnet.
    rewrite (sendMessage_outcome _ _ _ _ _ _ _ _ _ Hreq Hnet).
    unfold sendMessage_response, json. split; intros ->; cbn; [done|].
    intros m. destruct (json_body r) as [v|]; [|done].
    by intros ?%sendMessage_decode_throws.
  - intros messageId u init Hreq Hnet.
    rewrite (getMessage_outcome _ _ _ _ _ _ _ Hreq Hnet).
    unfold getMessage_response, json. split; intros ->; cbn; [done|].
    intros m. destruct (json_body r) as [v|]; cbn; [|done].
    by intros ?%getMessage_result_throws.
  - intros st u init Hreq Hnet.
    rewrite (getMessagesByStatus_outcome _ _ _ _ _ _ _ Hreq Hnet).
    unfold getMessagesByStatus_response, json. split; intros ->; cbn; [done|].
    intros m. destruct (json_body r) as [v|]; cbn; [|done].
    unfold getMessagesByStatus_result.
    destruct v; try done. by intros ?%Array_map_throws.
  - intros label r' Hs Ht. unfold failure. by rewrite Hs, Ht.
Qed.

Lemma protocol_failure_witness :
  outcome (respond bad_request)
    (sendMessage strict_host test_client "webhook-url" test_body None)
  = Abrupt (Error "Failed to send message: 400 Bad Request")
  ∧ outcome (respond bad_request) (getMessage strict_host test_client "msg-123")
    = Abrupt (Error "Failed to get message: 400 Bad Request")
  ∧ outcome (respond bad_request) (getMessagesByStatus strict_host test_client QUEUED)
    = Abrupt (Error "Failed to get messages by status: 400 Bad Request").
Proof.
  destruct (protocol_failure strict_host (respond bad_request) test_client bad_request)
    as (Hsend & Hget & Hlist & _).
  split; [|split].
  - eapply Hsend; reflexivity.
  - eapply Hget; reflexivity.
  - eapply Hlist; reflexivity.
Defined.

(** ** Construction *)

(** C9. The client made by [DoneClient.create(baseUrl, authToken)] is
    the client made by [new DoneClient({baseUrl, authToken})], and every
    operation on either issues the same requests and has the same
    outcome against every transport. *)
Theorem create_same_as_constructor (b t : string) :
  create b t = constructor {| baseUrl := b; authToken := t |}
  ∧ (∀ host net callbackUrl body options,
       run net (sendMessage host (create b t) callbackUrl body options)
       = run net (sendMessage host (constructor {| baseUrl := b; authToken := t |})
                    callbackUrl body options))
  ∧ (∀ host net messageId,
       run net (getMessage host (create b t) messageId)
       = run net (getMessage host (constructor {| baseUrl := b; authToken := t |})
                    messageId))
  ∧ (∀ host net st,
       run net (getMessagesByStatus host (create b t) st)
       = run net (getMessagesByStatus host
                    (constructor {| baseUrl := b; authToken := t |}) st)).
Proof. repeat split. Qed.

(** ** Fetch by id and list by status: the returned objects *)

Lemma assoc_obj_set k k' v props :
  assoc k' (obj_set k v props) = if String.eqb k' k then Some v else assoc k' props.
Proof.
  induction props as [|[k0 v0] rest IH]; cbn.
  - by destruct (String.eqb k' k).
  - destruct (String.eqb_spec k k0) as [->|Hk]; cbn.
    + by destruct (String.eqb k' k0).
    + rewrite IH. destruct (String.eqb_spec k' k0) as [->|]; [|done].
      by destruct (String.eqb_spec k0 k) as [->|].
Qed.

Lemma obj_set_keys k v props :
  (obj_set k v props).*1
  = (props.*1 ++ (if decide (k ∈@{list string} props.*1) then [] else [k]))%list.
Proof.
  induction props as [|[k0 v0] rest IH]; csimpl; [done|].
  destruct (String.eqb_spec k k0) as [->|Hne]; csimpl.
  - clear IH. rewrite decide_True by apply list_elem_of_here.
    f_equal. symmetry. apply app_nil_r.
  - rewrite IH. f_equal. f_equal.
    destruct (decide (k ∈@{list string} rest.*1)) as [Hin|Hout].
    + rewrite decide_True; [done | by apply list_elem_of_further].
    + rewrite decide_False; [done|].
      intros [?|?]%elem_of_cons; [by apply Hne | by apply Hout].
Qed.

Lemma obj_set_keys_prefix k v props : props.*1 `prefix_of` (obj_set k v props).*1.
Proof. rewrite obj_set_keys. by apply prefix_app_r. Qed.

Lemma elem_of_obj_set_keys k k0 v props :
  k ∈ (obj_set k0 v props).*1 ↔ k ∈@{list string} props.*1 ∨ k = k0.
Proof.
  rewrite obj_set_keys, elem_of_app.
  destruct (decide (k0 ∈@{list string} props.*1)) as [Hin|Hout].
  - rewrite elem_of_nil. split; [intros [?|[]]; by left|].
    intros [?| ->]; by left.
  - by rewrite list_elem_of_singleton.
Qed.

Lemma optional_Date_absent host : optional_Date host JUndefined = Normal JUndefined.
Proof. reflexivity. Qed.

Lemma optional_Date_string host s :
  s ≠ "" → optional_Date host (JStr s) = Normal (JDateV (Date_parse host s)).
Proof.
  intros Hs. unfold optional_Date. cbn. by destruct (String.eqb_spec s "").
Qed.

Lemma Date_parse_iso host s t : parse_iso s = Some t → Date_parse host s = TimeClip t.
Proof. intros Ht. unfold Date_parse. by rewrite Ht. Qed.

Lemma parse_iso_nonempty s t : parse_iso s = Some t → s ≠ "".
Proof. by intros Ht ->. Qed.

(** The object literal of [getMessage] on an object, read in the order
    of its evaluation. *)
Lemma getMessage_result_object host props :
  getMessage_result host (JObj props)
  = (createdAt ← new_Date host (default JUndefined (assoc "createdAt" props));
     updatedAt ← new_Date host (default JUndefined (assoc "updatedAt" props));
     scheduledAt ← new_Date host (default JUndefined (assoc "scheduledAt" props));
     lastAttemptAt ←
       optional_Date host (default JUndefined (assoc "lastAttemptAt" props));
     Normal (JObj
       (obj_set "lastAttemptAt" lastAttemptAt
          (obj_set "scheduledAt" (JDateV scheduledAt)
             (obj_set "updatedAt" (JDateV updatedAt)
                (obj_set "createdAt" (JDateV createdAt) props)))))).
Proof. reflexivity. Qed.

Lemma getMessage_result_cases host props :
  (message_converts host props = true
   ∧ ∃ createdAt updatedAt scheduledAt lastAttemptAt,
       new_Date host (default JUndefined (assoc "createdAt" props)) = Normal createdAt
       ∧ new_Date host (default JUndefined (assoc "updatedAt" props)) = Normal updatedAt
       ∧ new_Date host (default JUndefined (assoc "scheduledAt" props))
         = Normal scheduledAt
       ∧ optional_Date host (default JUndefined (assoc "lastAttemptAt" props))
         = Normal lastAttemptAt
       ∧ getMessage_result host (JObj props)
         = Normal (JObj
             (obj_set "lastAttemptAt" lastAttemptAt
                (obj_set "scheduledAt" (JDateV scheduledAt)
                   (obj_set "updatedAt" (JDateV updatedAt)
                      (obj_set "createdAt" (JDateV createdAt) props))))))
  ∨ (message_converts host props = false
     ∧ getMessage_result host (JObj props) = Abrupt TypeError).
Proof.
  rewrite getMessage_result_object.
  unfold message_converts, converts, optional_converts.
  destruct (new_Date host (default JUndefined (assoc "createdAt" props)))
    as [c|e] eqn:Hc; cbn; [|apply new_Date_throws in Hc as ->; by right].
  destruct (new_Date host (default JUndefined (assoc "updatedAt" props)))
    as [u|e] eqn:Hu; cbn; [|apply new_Date_throws in Hu as ->; by right].
  destruct (new_Date host (default JUndefined (assoc "scheduledAt" props)))
    as [s|e] eqn:Hs; cbn; [|apply new_Date_throws in Hs as ->; by right].
  destruct (optional_Date host (default JUndefined (assoc "lastAttemptAt" props)))
    as [l|e] eqn:Hl; cbn; [|apply optional_Date_throws in Hl as ->; by right].
  left. split; [done|]. by exists c, u, s, l.
Qed.

Lemma status_info_object host props :
  status_info host (JObj props)
  = (scheduledAt ← new_Date host (default JUndefined (assoc "scheduledAt" props));
     lastAttemptAt ←
       optional_Date host (default JUndefined (assoc "lastAttemptAt" props));
     Normal (JObj
       (obj_set "lastAttemptAt" lastAttemptAt
          (obj_set "scheduledAt" (JDateV scheduledAt) props)))).
Proof. reflexivity. Qed.

Lemma status_info_cases host props :
  (entry_converts host props = true
   ∧ ∃ scheduledAt lastAttemptAt,
       new_Date host (default JUndefined (assoc "scheduledAt" props))
       = Normal scheduledAt
       ∧ optional_Date host (default JUndefined (assoc "lastAttemptAt" props))
         = Normal lastAttemptAt
       ∧ status_info host (JObj props)
         = Normal (JObj
             (obj_set "lastAttemptAt" lastAttemptAt
                (obj_set "scheduledAt" (JDateV scheduledAt) props))))
  ∨ (entry_converts host props = false
     ∧ status_info host (JObj props) = Abrupt TypeError).
Proof.
  rewrite status_info_object. unfold entry_converts, converts, optional_converts.
  destruct (new_Date host (default JUndefined (assoc "scheduledAt" props)))
    as [s|e] eqn:Hs; cbn; [|apply new_Date_throws in Hs as ->; by right].
  destruct (optional_Date host (default JUndefined (assoc "lastAttemptAt" props)))
    as [l|e] eqn:Hl; cbn; [|apply optional_Date_throws in Hl as ->; by right].
  left. split; [done|]. by exists s, l.
Qed.

(** C7, as amended. For every successful response of [getMessage] whose
    JSON is an object on whose timestamps [new Date] does not throw:
    every property other than [createdAt], [updatedAt], [scheduledAt]
    and [lastAttemptAt] is in the result unchanged; each of [createdAt],
    [updatedAt], [scheduledAt] is the Date made of the response's value,
    the instant the string denotes when it is an ISO 8601 string; and a
    [lastAttemptAt] absent from the response is a property of the result
    whose value is [undefined]. *)
Theorem getMessage_fields host net this messageId u init r props :
  requests net (getMessage host this messageId) = [(u, init)] →
  net u init = Resolved r →
  ok r = true →
  json_body r = Some (JObj props) →
  message_converts host props = true →
  ∃ res,
    outcome net (getMessage host this messageId) = Normal (JObj res)
    ∧ (∀ k, k ∉ ["createdAt"; "updatedAt"; "scheduledAt"; "lastAttemptAt"] →
         assoc k res = assoc k props)
    ∧ (∀ k, k ∈ ["createdAt"; "updatedAt"; "scheduledAt"] →
         (∃ d, new_Date host (default JUndefined (assoc k props)) = Normal d
               ∧ assoc k res = Some (JDateV d))
         ∧ ∀ s t, assoc k props = Some (JStr s) → parse_iso s = Some t →
             assoc k res = Some (JDateV (TimeClip t)))
    ∧ (assoc "lastAttemptAt" props = None →
         assoc "lastAttemptAt" res = Some JUndefined
         ∧ "lastAttemptAt" ∈ res.*1
         ∧ Get (JObj res) "lastAttemptAt" = Normal JUndefined).
Proof.
  intros Hreq Hnet Hok Hjson Hconv.
  rewrite (getMessage_outcome _ _ _ _ _ _ _ Hreq Hnet).
  unfold getMessage_response, json. rewrite Hok, Hjson. cbn [negb mbind Completion_mbind].
  destruct (getMessage_result_cases host props)
    as [(_ & c & upd & s & l & Hc & Hu & Hs & Hl & ->)|[Hno _]]; [|congruence].
  eexists. split; [reflexivity|]. split; [|split].
  - intros k Hk. rewrite !assoc_obj_set.
    destruct (String.eqb_spec k "lastAttemptAt") as [->|_]; [set_solver|].
    destruct (String.eqb_spec k "scheduledAt") as [->|_]; [set_solver|].
    destruct (String.eqb_spec k "updatedAt") as [->|_]; [set_solver|].
    by destruct (String.eqb_spec k "createdAt") as [->|_]; [set_solver|].
  - intros k Hk.
    assert (∃ d, new_Date host (default JUndefined (assoc k props)) = Normal d
                 ∧ assoc k
                     (obj_set "lastAttemptAt" l
                        (obj_set "scheduledAt" (JDateV s)
                           (obj_set "updatedAt" (JDateV upd)
                              (obj_set "createdAt" (JDateV c) props))))
                   = Some (JDateV d)) as (d & Hd & Hk').
    { rewrite !assoc_obj_set.
      repeat apply elem_of_cons in Hk as [->|Hk]; [by eauto..|].
      by apply elem_of_nil in Hk. }
    split; [by exists d|].
    intros s' t Hks Ht. rewrite Hk'. rewrite Hks in Hd. cbn in Hd.
    rewrite (Date_parse_iso host s' t Ht) in Hd. by injection Hd as <-.
  - intros Habs. rewrite Habs in Hl. cbn in Hl. injection Hl as <-.
    split; [by rewrite assoc_obj_set|]. split.
    + apply elem_of_obj_set_keys. by right.
    + cbn. by rewrite assoc_obj_set.
Qed.

Lemma getMessage_fields_witness :
  ∃ res,
    outcome (respond message_found) (getMessage strict_host test_client "msg-123")
    = Normal (JObj res)
    ∧ assoc "id" res = Some (JStr "msg-123")
    ∧ assoc "attempts" res = Some (JNum 0)
    ∧ assoc "createdAt" res = Some (JDateV (DateAt 1704110400000))
    ∧ assoc "scheduledAt" res = Some (JDateV (DateAt 1704110700000))
    ∧ assoc "lastAttemptAt" res = Some JUndefined.
Proof.
  destruct (getMessage_fields strict_host (respond message_found) test_client
              "msg-123" _ _ message_found message_props
              eq_refl eq_refl eq_refl eq_refl eq_refl)
    as (res & Hout & Hother & Hdates & Habsent).
  exists res. split; [exact Hout|]. repeat split.
  - rewrite (Hother "id"); [reflexivity | compute_done].
  - rewrite (Hother "attempts"); [reflexivity | compute_done].
  - destruct (Hdates "createdAt") as [_ Hiso]; [compute_done|].
    by apply (Hiso "2024-01-01T12:00:00Z" 1704110400000).
  - destruct (Hdates "scheduledAt") as [_ Hiso]; [compute_done|].
    by apply (Hiso "2024-01-01T12:05:00Z" 1704110700000).
  - by destruct Habsent.
Defined.

(** C7, counterexample: the response of the [getMessage] test has no
    [lastAttemptAt]; the result has the own property [lastAttemptAt],
    after the properties of the response, with the value [undefined]. *)
Lemma getMessage_lastAttemptAt_added :
  assoc "lastAttemptAt" message_props = None
  ∧ ∃ res,
      outcome (respond message_found) (getMessage strict_host test_client "msg-123")
      = Normal (JObj res)
      ∧ assoc "lastAttemptAt" res = Some JUndefined
      ∧ res.*1 = (message_props.*1 ++ ["lastAttemptAt"])%list.
Proof. split; [reflexivity|]. eexists. repeat split. Qed.

Lemma Array_map_objects host items :
  Forall is_object items →
  (∀ props, JObj props ∈ items → entry_converts host props = true) →
  ∃ out, Array_map (status_info host) items = Normal out
    ∧ Forall2 (λ item y, status_info host item = Normal y) items out.
Proof.
  induction 1 as [|x rest [props ->] _ IH]; intros Hconv; cbn [Array_map].
  - by exists [].
  - destruct IH as (out & Hout & Hall).
    { intros props' Hin. apply Hconv. by apply list_elem_of_further. }
    destruct (status_info_cases host props) as [(_ & s & l & _ & _ & Hx)|[Hno _]].
    + rewrite Hx, Hout. cbn. eexists. split; [reflexivity|]. by constructor.
    + rewrite Hconv in Hno; [done | apply list_elem_of_here].
Qed.

(** C8, as amended. For every successful response of
    [getMessagesByStatus] whose JSON is an array of objects on whose
    timestamps [new Date] does not throw: the result has the length and
    the order of the array; in the entry at each index [scheduledAt] is
    the Date made of the response's value (the instant the string
    denotes when it is an ISO 8601 string), [lastAttemptAt] is the Date
    made of a non-empty string, and a property of the entry whose value
    is [undefined] when it is absent from the response, and the other
    properties are unchanged; the empty array gives the empty result. *)
Theorem getMessagesByStatus_entries host net this st u init r items :
  requests net (getMessagesByStatus host this st) = [(u, init)] →
  net u init = Resolved r →
  ok r = true →
  json_body r = Some (JArr items) →
  Forall is_object items →
  (∀ props, JObj props ∈ items → entry_converts host props = true) →
  ∃ out,
    outcome net (getMessagesByStatus host this st) = Normal out
    ∧ length out = length items
    ∧ (∀ i props, items !! i = Some (JObj props) →
         ∃ res, out !! i = Some (JObj res)
           ∧ (∃ d, new_Date host (default JUndefined (assoc "scheduledAt" props))
                   = Normal d
                   ∧ assoc "scheduledAt" res = Some (JDateV d))
           ∧ (∀ s t, assoc "scheduledAt" props = Some (JStr s) → parse_iso s = Some t →
                assoc "scheduledAt" res = Some (JDateV (TimeClip t)))
           ∧ (∀ s, assoc "lastAttemptAt" props = Some (JStr s) → s ≠ "" →
                assoc "lastAttemptAt" res = Some (JDateV (Date_parse host s)))
           ∧ (∀ s t, assoc "lastAttemptAt" props = Some (JStr s) → parse_iso s = Some t →
                assoc "lastAttemptAt" res = Some (JDateV (TimeClip t)))
           ∧ (assoc "lastAttemptAt" props = None →
                assoc "lastAttemptAt" res = Some JUndefined
                ∧ Get (JObj res) "lastAttemptAt" = Normal JUndefined)
           ∧ (∀ k, k ∉ ["scheduledAt"; "lastAttemptAt"] → assoc k res = assoc k props))
    ∧ (items = [] → out = []).
Proof.
  intros Hreq Hnet Hok Hjson Hobj Hconv.
  rewrite (getMessagesByStatus_outcome _ _ _ _ _ _ _ Hreq Hnet).
  unfold getMessagesByStatus_response, json. rewrite Hok, Hjson. cbn.
  destruct (Array_map_objects host items Hobj Hconv) as (out & -> & Hall).
  exists out. split; [done|]. split; [by apply Forall2_length in Hall|]. split.
  - intros i props Hi.
    destruct (Forall2_lookup_l _ _ _ _ _ Hall Hi) as (y & Hy & Hinfo).
    destruct (status_info_cases host props) as [(_ & s & l & Hs & Hl & Hx)|[_ Hx]];
      rewrite Hx in Hinfo; [|discriminate]. injection Hinfo as <-.
    eexists. split; [exact Hy|].
    rewrite !assoc_obj_set. cbn.
    split; [by exists s|]. split; [|split; [|split; [|split]]].
    + intros s' t Hks Ht. rewrite Hks in Hs. cbn in Hs.
      rewrite (Date_parse_iso host s' t Ht) in Hs. by injection Hs as <-.
    + intros s' Hks Hne. rewrite Hks in Hl.
      change (optional_Date host (JStr s') = Normal l) in Hl.
      rewrite optional_Date_string in Hl by done. by injection Hl as <-.
    + intros s' t Hks Ht. rewrite Hks in Hl.
      change (optional_Date host (JStr s') = Normal l) in Hl.
      rewrite optional_Date_string in Hl by by eapply parse_iso_nonempty.
      rewrite (Date_parse_iso host s' t Ht) in Hl. by injection Hl as <-.
    + intros Habs. rewrite Habs in Hl. by injection Hl as <-.
    + intros k Hk. rewrite !assoc_obj_set.
      destruct (String.eqb_spec k "lastAttemptAt") as [->|_]; [set_solver|].
      by destruct (String.eqb_spec k "scheduledAt") as [->|_]; [set_solver|].
  - intros ->. by inversion Hall.
Qed.

Lemma getMessagesByStatus_entries_witness :
  ∃ first second,
    outcome (respond queued_found) (getMessagesByStatus strict_host test_client QUEUED)
    = Normal [JObj first; JObj second]
    ∧ assoc "id" first = Some (JStr "msg-1")
    ∧ assoc "scheduledAt" first = Some (JDateV (DateAt 1704110400000))
    ∧ assoc "lastAttemptAt" first = Some JUndefined
    ∧ assoc "id" second = Some (JStr "msg-2")
    ∧ assoc "lastAttemptAt" second = Some (JDateV (DateAt 1704106800000)).
Proof.
  destruct (getMessagesByStatus_entries strict_host (respond queued_found)
              test_client QUEUED _ _ queued_found queued_items
              eq_refl eq_refl eq_refl eq_refl)
    as (out & Hout & Hlen & Hentries & _).
  { repeat constructor; eexists; reflexivity. }
  { intros props Hin. unfold queued_items in Hin.
    apply elem_of_cons in Hin as [[= ->]|Hin]; [reflexivity|].
    apply elem_of_cons in Hin as [[= ->]|Hin]; [reflexivity|].
    by apply elem_of_nil in Hin. }
  destruct (Hentries 0%nat _ eq_refl) as (first & H0 & _ & Hat0 & _ & _ & Habs0 & Hk0).
  destruct (Hentries 1%nat _ eq_refl) as (second & H1 & _ & _ & _ & Hlast1 & _ & Hk1).
  exists first, second.
  destruct out as [|y0 [|y1 [|y2 out]]]; try discriminate Hlen.
  cbn in H0, H1. injection H0 as ->. injection H1 as ->.
  split; [exact Hout|]. repeat split.
  - rewrite (Hk0 "id"); [reflexivity | compute_done].
  - by apply (Hat0 "2024-01-01T12:00:00Z" 1704110400000).
  - by destruct Habs0.
  - rewrite (Hk1 "id"); [reflexivity | compute_done].
  - by apply (Hlast1 "2024-01-01T11:00:00Z" 1704106800000).
Defined.

(** C8, counterexample: the first entry of the response of the
    [getMessagesByStatus] test has no [lastAttemptAt]; the first entry
    of the result has the own property [lastAttemptAt], with the value
    [undefined]. *)
Lemma getMessagesByStatus_lastAttemptAt_added :
  ∃ props first second,
    queued_items !! 0%nat = Some (JObj props)
    ∧ assoc "lastAttemptAt" props = None
    ∧ outcome (respond queued_found)
        (getMessagesByStatus strict_host test_client QUEUED)
      = Normal [JObj first; second]
    ∧ assoc "lastAttemptAt" first = Some JUndefined
    ∧ first.*1 = (props.*1 ++ ["lastAttemptAt"])%list.
Proof. do 3 eexists. repeat split. Qed.

(** ** Dates: decimal fields *)

Lemma digit_val_char d : 0 ≤ d ≤ 9 → digit_val (digit_char d) = Some d.
Proof.
  intros Hd.
  assert (d = 0 ∨ d = 1 ∨ d = 2 ∨ d = 3 ∨ d = 4 ∨ d = 5 ∨ d = 6 ∨ d = 7
          ∨ d = 8 ∨ d = 9) as Hcases by lia.
  repeat destruct Hcases as [->|Hcases]; try reflexivity. by subst.
Qed.

Lemma read_digits_app n m s acc :
  read_digits (n + m) s acc
  = '(a, s') ← read_digits n s acc; read_digits m s' a.
Proof.
  revert s acc. induction n as [|n IH]; intros s acc; cbn; [done|].
  destruct s as [|c s]; [done|]. destruct (digit_val c); [apply IH | done].
Qed.

Lemma read_digits_digits n v rest acc :
  0 ≤ v < 10 ^ Z.of_nat n →
  read_digits n (digits n v rest) acc = Some (acc * 10 ^ Z.of_nat n + v, rest).
Proof.
  revert v rest. induction n as [|n IH]; intros v rest Hv.
  - cbn. f_equal. f_equal. change (10 ^ Z.of_nat 0) with 1 in Hv. lia.
  - replace (S n) with (n + 1)%nat at 1 by lia.
    rewrite read_digits_app. cbn [digits].
    rewrite Nat2Z.inj_succ, Z.pow_succ_r in * by lia.
    rewrite IH by (split; [apply Z.div_pos; lia | apply Z.div_lt_upper_bound; lia]).
    cbn. rewrite digit_val_char by (pose proof (Z.mod_pos_bound v 10); lia).
    f_equal. f_equal. pose proof (Z.div_mod v 10). lia.
Qed.

Lemma digits_head n v rest :
  ∃ c tail, digits (S n) v rest = String c tail
    ∧ c ∈ ["0"; "1"; "2"; "3"; "4"; "5"; "6"; "7"; "8"; "9"]%char.
Proof.
  revert v rest. induction n as [|n IH]; intros v rest.
  - cbn. eexists _, _. split; [reflexivity|].
    pose proof (Z.mod_pos_bound v 10).
    assert (v mod 10 = 0 ∨ v mod 10 = 1 ∨ v mod 10 = 2 ∨ v mod 10 = 3
            ∨ v mod 10 = 4 ∨ v mod 10 = 5 ∨ v mod 10 = 6 ∨ v mod 10 = 7
            ∨ v mod 10 = 8 ∨ v mod 10 = 9) as Hcases by lia.
    repeat destruct Hcases as [->|Hcases]; try compute_done.
    rewrite Hcases. compute_done.
  - change (digits (S (S n)) v rest)
      with (digits (S n) (v / 10) (String (digit_char (v mod 10)) rest)).
    apply IH.
Qed.

(** ** Dates: the calendar *)

(** The year of the era and the day of the year that [civil_from_days]
    computes from the day of the era. *)
Lemma day_of_era doe :
  0 ≤ doe < 146097 →
  let yoe := (doe - doe / 1460 + doe / 36524 - doe / 146096) / 365 in
  let doy := doe - (365 * yoe + yoe / 4 - yoe / 100) in
  0 ≤ yoe ≤ 399 ∧ 0 ≤ doy ≤ 365
  ∧ (doy = 365 →
     ((yoe + 1) mod 4 = 0 ∧ (yoe + 1) mod 100 ≠ 0) ∨ (yoe + 1) mod 400 = 0).
Proof.
  intros H yoe doy. subst yoe doy.
  Z.div_mod_to_equations. lia.
Qed.

Lemma InLeapYear_spec y :
  InLeapYear y = true ↔ (y mod 4 = 0 ∧ y mod 100 ≠ 0) ∨ y mod 400 = 0.
Proof.
  unfold InLeapYear.
  rewrite orb_true_iff, andb_true_iff, negb_true_iff, !Z.eqb_eq, Z.eqb_neq.
  done.
Qed.

Lemma InLeapYear_era y era : InLeapYear (y + era * 400) = InLeapYear y.
Proof.
  unfold InLeapYear.
  replace ((y + era * 400) mod 4) with (y mod 4)
    by (Z.div_mod_to_equations; lia).
  replace ((y + era * 400) mod 100) with (y mod 100)
    by (Z.div_mod_to_equations; lia).
  replace ((y + era * 400) mod 400) with (y mod 400)
    by (Z.div_mod_to_equations; lia).
  done.
Qed.

(** A day number is the day number of the date [civil_from_days] gives
    it, and that date is a date of the calendar. *)
Lemma civil_from_days_spec z y m d :
  civil_from_days z = (y, m, d) →
  days_from_civil y m d = z ∧ 1 ≤ m ≤ 12 ∧ 1 ≤ d ≤ DaysInMonth y m.
Proof.
  unfold civil_from_days.
  set (era := (z + 719468) / 146097).
  set (doe := (z + 719468) mod 146097).
  assert (0 ≤ doe < 146097) as Hdoe by (apply Z.mod_pos_bound; lia).
  assert (z + 719468 = 146097 * era + doe) as Hz by (apply Z.div_mod; lia).
  destruct (day_of_era doe Hdoe) as (Hyoe & Hdoy & Hleap).
  set (yoe := (doe - doe / 1460 + doe / 36524 - doe / 146096) / 365) in *.
  set (doy := doe - (365 * yoe + yoe / 4 - yoe / 100)) in *.
  set (mp := (5 * doy + 2) / 153).
  assert (0 ≤ mp ≤ 11) as Hmp by (subst mp; Z.div_mod_to_equations; lia).
  assert (153 * mp ≤ 5 * doy + 2 < 153 * mp + 153) as Hmpdef
    by (subst mp; Z.div_mod_to_equations; lia).
  clearbody mp.
  set (y0 := yoe + era * 400).
  assert (InLeapYear (y0 + 1) = InLeapYear (yoe + 1)) as Hera.
  { subst y0. replace (yoe + era * 400 + 1) with (yoe + 1 + era * 400) by lia.
    apply InLeapYear_era. }
  assert (y0 / 400 = era ∧ y0 mod 400 = yoe) as [Hdiv Hmod]
    by (subst y0; Z.div_mod_to_equations; lia).
  assert (doy = 365 → InLeapYear (yoe + 1) = true) as Hleap'
    by (intros ?; apply InLeapYear_spec; auto).
  assert (doe = doy + (365 * yoe + yoe / 4 - yoe / 100)) as Hdoydef
    by (subst doy; lia).
  clearbody yoe doy y0. clear Hleap.
  intros [= <- <- <-].
  unfold days_from_civil, DaysInMonth.
  destruct (Z.ltb_spec mp 10).
  - destruct (Z.leb_spec (mp + 3) 2); [lia|].
    destruct (Z.ltb_spec 2 (mp + 3)); [|lia].
    rewrite Hdiv, Hmod.
    destruct (Z.eqb_spec (mp + 3) 2); [lia|].
    split; [|split; [lia|]].
    + Z.div_mod_to_equations; lia.
    + destruct (Z.eqb_spec (mp + 3) 4), (Z.eqb_spec (mp + 3) 6),
        (Z.eqb_spec (mp + 3) 9), (Z.eqb_spec (mp + 3) 11); cbn [orb];
        Z.div_mod_to_equations; lia.
  - destruct (Z.leb_spec (mp - 9) 2); [|lia].
    destruct (Z.ltb_spec 2 (mp - 9)); [lia|].
    replace (y0 + 1 - 1) with y0 by lia.
    rewrite Hdiv, Hmod.
    split; [|split; [lia|]].
    + Z.div_mod_to_equations; lia.
    + destruct (Z.eqb_spec (mp - 9) 2).
      * rewrite Hera. destruct (InLeapYear (yoe + 1)) eqn:Hly.
        -- Z.div_mod_to_equations; lia.
        -- assert (doy ≠ 365) by (intros Heq; apply Hleap' in Heq; congruence).
           Z.div_mod_to_equations; lia.
      * destruct (Z.eqb_spec (mp - 9) 4), (Z.eqb_spec (mp - 9) 6),
          (Z.eqb_spec (mp - 9) 9), (Z.eqb_spec (mp - 9) 11); cbn [orb];
          Z.div_mod_to_equations; lia.
Qed.

Lemma civil_year_bound z y m d :
  civil_from_days z = (y, m, d) →
  -100000000 ≤ z ≤ 100000000 →
  -272000 ≤ y ≤ 276000.
Proof.
  unfold civil_from_days.
  set (era := (z + 719468) / 146097).
  set (doe := (z + 719468) mod 146097).
  assert (0 ≤ doe < 146097) as Hdoe by (apply Z.mod_pos_bound; lia).
  destruct (day_of_era doe Hdoe) as (Hyoe & _ & _).
  set (yoe := (doe - doe / 1460 + doe / 36524 - doe / 146096) / 365) in *.
  clearbody yoe. intros [= <- _ _] Hz.
  assert (-680 ≤ era ≤ 689) by (subst era; Z.div_mod_to_equations; lia).
  destruct (_ <=? 2); lia.
Qed.

(** The time within the day. *)
Lemma time_fields t :
  0 ≤ HourFromTime t ≤ 23 ∧ 0 ≤ MinFromTime t ≤ 59 ∧ 0 ≤ SecFromTime t ≤ 59
  ∧ 0 ≤ msFromTime t ≤ 999
  ∧ MakeDate (Day t)
      (MakeTime (HourFromTime t) (MinFromTime t) (SecFromTime t) (msFromTime t))
    = t.
Proof.
  unfold HourFromTime, MinFromTime, SecFromTime, msFromTime, MakeDate, MakeTime,
    Day, msPerDay, msPerHour, msPerMinute, msPerSecond.
  Z.div_mod_to_equations. lia.
Qed.

Lemma MakeDay_civil y m d :
  1 ≤ m ≤ 12 → MakeDay y (m - 1) d = days_from_civil y m d.
Proof.
  intros Hm. unfold MakeDay.
  replace ((m - 1) / 12) with 0 by (Z.div_mod_to_equations; lia).
  replace ((m - 1) mod 12 + 1) with m by (Z.div_mod_to_equations; lia).
  replace (y + 0) with y by lia.
  unfold days_from_civil. cbv zeta.
  generalize ((153 * (if 2 <? m then m - 3 else m + 9) + 2) / 5).
  generalize (if m <=? 2 then y - 1 else y). intros y' doy. lia.
Qed.

(** ** Dates: reading back what [toISOString] writes *)

Lemma read_digits_0 n v rest :
  0 ≤ v < 10 ^ Z.of_nat n → read_digits n (digits n v rest) 0 = Some (v, rest).
Proof. intros Hv. by rewrite read_digits_digits. Qed.

Lemma read_year_digits y rest :
  -999999 ≤ y ≤ 999999 → read_year (year_digits y rest) = Some (y, rest).
Proof.
  intros Hy. unfold year_digits.
  destruct (Z.leb_spec 0 y); cbn [andb].
  - destruct (Z.leb_spec y 9999).
    + transitivity (read_digits 4 (digits 4 y rest) 0);
        [|apply read_digits_0; cbn; lia].
      destruct (digits_head 3 y rest) as (c & tail & -> & Hc).
      repeat apply elem_of_cons in Hc as [->|Hc]; try reflexivity.
      by apply elem_of_nil in Hc.
    + destruct (Z.ltb_spec y 0); [lia|].
      unfold read_year. rewrite read_digits_0 by (cbn; lia). done.
  - destruct (Z.ltb_spec y 0); [|lia].
    unfold read_year. rewrite read_digits_0 by (cbn; lia). cbn.
    destruct (Z.eqb_spec (- y) 0); [lia|]. f_equal. f_equal. lia.
Qed.

Lemma read_month_day_digits m d rest :
  0 ≤ m < 100 → 0 ≤ d < 100 →
  read_month_day (String "-" (digits 2 m (String "-" (digits 2 d rest))))
  = Some (m, d, rest).
Proof.
  intros Hm Hd. unfold read_month_day.
  rewrite read_digits_0 by (cbn; lia). cbn -[digits read_digits].
  rewrite read_digits_0 by (cbn; lia). done.
Qed.

Lemma read_time_digits h mi sec ms rest :
  0 ≤ h < 100 → 0 ≤ mi < 100 → 0 ≤ sec < 100 → 0 ≤ ms < 1000 →
  read_time (digits 2 h (String ":" (digits 2 mi (String ":" (digits 2 sec
               (String "." (digits 3 ms rest)))))))
  = Some (h, mi, sec, ms, rest).
Proof.
  intros Hh Hmi Hsec Hms. unfold read_time.
  rewrite read_digits_0 by (cbn; lia). cbn -[digits read_digits].
  rewrite read_digits_0 by (cbn; lia). cbn -[digits read_digits].
  rewrite read_digits_0 by (cbn; lia). cbn -[digits read_digits].
  rewrite read_digits_0 by (cbn; lia). done.
Qed.

(** Parsing the ISO string of a time value of the range of Dates gives
    the time value back. *)
Lemma parse_iso_toISOString t :
  Z.abs t ≤ maxTime →
  ∃ s, toISOString (DateAt t) = Normal s ∧ parse_iso s = Some t.
Proof.
  intros Ht. unfold toISOString.
  destruct (civil_from_days (Day t)) as [[y m] d] eqn:Hcivil.
  eexists. split; [reflexivity|]. cbv [String.append].
  destruct (civil_from_days_spec _ _ _ _ Hcivil) as (Hday & Hm & Hd).
  assert (-100000000 ≤ Day t ≤ 100000000) as Hrange
    by (unfold Day, msPerDay, maxTime in *; Z.div_mod_to_equations; lia).
  pose proof (civil_year_bound _ _ _ _ Hcivil Hrange) as Hy.
  destruct (time_fields t) as (Hh & Hmi & Hsec & Hms & Htime).
  assert (DaysInMonth y m ≤ 31) as Hdim
    by (unfold DaysInMonth; repeat case_match; lia).
  unfold parse_iso.
  rewrite read_year_digits by lia. cbn [mbind option_bind].
  rewrite read_month_day_digits by lia. cbn [mbind option_bind].
  replace (1 <=? m) with true by (symmetry; apply Z.leb_le; lia).
  replace (m <=? 12) with true by (symmetry; apply Z.leb_le; lia).
  replace (1 <=? d) with true by (symmetry; apply Z.leb_le; lia).
  replace (d <=? DaysInMonth y m) with true by (symmetry; apply Z.leb_le; lia).
  cbn [andb negb].
  rewrite read_time_digits by lia. cbn [mbind option_bind].
  unfold valid_time.
  replace (HourFromTime t <=? 23) with true by (symmetry; apply Z.leb_le; lia).
  replace (MinFromTime t <=? 59) with true by (symmetry; apply Z.leb_le; lia).
  replace (SecFromTime t <=? 59) with true by (symmetry; apply Z.leb_le; lia).
  cbn. f_equal.
  rewrite MakeDay_civil, Hday by lia. lia.
Qed.

Lemma Date_parse_canonical host s :
  canonical_iso s → toISOString (Date_parse host s) = Normal s.
Proof.
  intros (t & Ht & Hs).
  destruct (parse_iso_toISOString t Ht) as (s' & Hs' & Hparse).
  rewrite Hs in Hs'. injection Hs' as <-.
  unfold Date_parse, TimeClip. rewrite Hparse.
  by destruct (Z.leb_spec (Z.abs t) maxTime); [|lia].
Qed.

Lemma canonical_iso_nonempty s : canonical_iso s → s ≠ "".
Proof.
  intros (t & Ht & Hs) ->.
  destruct (parse_iso_toISOString t Ht) as (s' & Hs' & Hparse).
  rewrite Hs in Hs'. by injection Hs' as <-.
Qed.

(** ** Timestamps *)

Lemma canonical_iso_parse s t :
  canonical_iso s → parse_iso s = Some t → toISOString (DateAt t) = Normal s.
Proof.
  intros (t0 & Ht0 & Hs) Ht.
  destruct (parse_iso_toISOString t0 Ht0) as (s' & Hs' & Hparse).
  rewrite Hs in Hs'. injection Hs' as <-. congruence.
Qed.

(** What [new Date] makes of an ISO 8601 string of an instant [t] in the
    range of Dates: the Date at [t], whose ISO serialization denotes
    [t], and is the string itself when it is in the form [toISOString]
    writes. *)
Lemma new_Date_iso host s t :
  parse_iso s = Some t → Z.abs t ≤ maxTime →
  new_Date host (JStr s) = Normal (DateAt t)
  ∧ optional_Date host (JStr s) = Normal (JDateV (DateAt t))
  ∧ ∃ s', toISOString (DateAt t) = Normal s' ∧ parse_iso s' = Some t
          ∧ (canonical_iso s → s' = s).
Proof.
  intros Hparse Ht.
  assert (Date_parse host s = DateAt t) as Hdate.
  { rewrite (Date_parse_iso host s t Hparse). unfold TimeClip.
    by destruct (Z.leb_spec (Z.abs t) maxTime); [|lia]. }
  split; [by cbn; rewrite Hdate|].
  split; [by rewrite optional_Date_string, Hdate by by eapply parse_iso_nonempty|].
  destruct (parse_iso_toISOString t Ht) as (s' & Hs' & Hparse').
  exists s'. split; [done|]. split; [done|].
  intros Hcanon. rewrite (canonical_iso_parse s t Hcanon Hparse) in Hs'.
  by injection Hs' as <-.
Qed.

(** C5, as amended. In every successful response on whose timestamps
    [new Date] does not throw, a timestamp that is an ISO 8601 string of
    the ECMAScript format with a UTC offset, of an instant in the range
    of Dates, is in the result the Date at that instant, whose ISO
    serialization denotes the same instant, and is the original string
    when that is in the form [toISOString] writes
    ([YYYY-MM-DDTHH:mm:ss.sssZ], a sign and six digits for a year outside
    0 to 9999): [scheduledAt] in the result of [sendMessage];
    [createdAt], [updatedAt], [scheduledAt] and a present [lastAttemptAt]
    in the result of [getMessage]; [scheduledAt] and a present
    [lastAttemptAt] in every entry of [getMessagesByStatus]. A
    [lastAttemptAt] absent from the response is a property of the result
    whose value is [undefined]; an [error] absent from the response is
    absent from the result. *)
Theorem timestamps_round_trip host r :
  ok r = true →
  (∀ props s t, json_body r = Some (JObj props) →
     assoc "scheduledAt" props = Some (JStr s) →
     parse_iso s = Some t → Z.abs t ≤ maxTime →
     ∃ res s', sendMessage_response host r = Normal res
       ∧ scheduledAt res = DateAt t
       ∧ toISOString (scheduledAt res) = Normal s'
       ∧ parse_iso s' = Some t
       ∧ (canonical_iso s → s' = s))
  ∧ (∀ props, json_body r = Some (JObj props) →
       message_converts host props = true →
       ∃ res, getMessage_response host r = Normal (JObj res)
         ∧ (∀ k s t,
              k ∈ ["createdAt"; "updatedAt"; "scheduledAt"; "lastAttemptAt"] →
              assoc k props = Some (JStr s) →
              parse_iso s = Some t → Z.abs t ≤ maxTime →
              ∃ s', assoc k res = Some (JDateV (DateAt t))
                ∧ toISOString (DateAt t) = Normal s'
                ∧ parse_iso s' = Some t
                ∧ (canonical_iso s → s' = s))
         ∧ (assoc "lastAttemptAt" props = None →
              assoc "lastAttemptAt" res = Some JUndefined)
         ∧ (assoc "error" props = None → assoc "error" res = None))
  ∧ (∀ items, json_body r = Some (JArr items) → Forall is_object items →
       (∀ props, JObj props ∈ items → entry_converts host props = true) →
       ∃ out, getMessagesByStatus_response host r = Normal out
         ∧ ∀ i props, items !! i = Some (JObj props) →
             ∃ res, out !! i = Some (JObj res)
               ∧ (∀ k s t, k ∈ ["scheduledAt"; "lastAttemptAt"] →
                    assoc k props = Some (JStr s) →
                    parse_iso s = Some t → Z.abs t ≤ maxTime →
                    ∃ s', assoc k res = Some (JDateV (DateAt t))
                      ∧ toISOString (DateAt t) = Normal s'
                      ∧ parse_iso s' = Some t
                      ∧ (canonical_iso s → s' = s))
               ∧ (assoc "lastAttemptAt" props = None →
                    assoc "lastAttemptAt" res = Some JUndefined)
               ∧ (assoc "error" props = None → assoc "error" res = None)).
Proof.
  intros Hok. split; [|split].
  - intros props s t Hjson Hat Hparse Ht.
    destruct (new_Date_iso host s t Hparse Ht) as (Hnew & _ & s' & Hs' & Hp' & Hc).
    unfold sendMessage_response, json. rewrite Hok, Hjson. cbn. rewrite Hat. cbn.
    cbn in Hnew. injection Hnew as ->.
    eexists _, s'. split; [reflexivity|]. by cbn.
  - intros props Hjson Hconv.
    unfold getMessage_response, json. rewrite Hok, Hjson.
    cbn [negb mbind Completion_mbind].
    destruct (getMessage_result_cases host props)
      as [(_ & c & upd & sch & l & Hc & Hu & Hs & Hl & ->)|[Hno _]]; [|congruence].
    eexists. split; [reflexivity|]. split; [|split].
    + intros k s t Hk Hks Hparse Ht.
      destruct (new_Date_iso host s t Hparse Ht) as (Hnew & Hopt & s' & Hiso).
      exists s'. split; [|exact Hiso]. rewrite !assoc_obj_set.
      repeat apply elem_of_cons in Hk as [->|Hk];
        [..|by apply elem_of_nil in Hk]; rewrite Hks in *; cbn in *; congruence.
    + intros Habs. rewrite Habs in Hl. injection Hl as <-.
      by rewrite assoc_obj_set.
    + intros Habs. by rewrite !assoc_obj_set.
  - intros items Hjson Hobj Hconv.
    unfold getMessagesByStatus_response, json. rewrite Hok, Hjson. cbn.
    destruct (Array_map_objects host items Hobj Hconv) as (out & -> & Hall).
    exists out. split; [done|]. intros i props Hi.
    destruct (Forall2_lookup_l _ _ _ _ _ Hall Hi) as (y & Hy & Hinfo).
    destruct (status_info_cases host props) as [(_ & sch & l & Hs & Hl & Hx)|[_ Hx]];
      rewrite Hx in Hinfo; [|discriminate]. injection Hinfo as <-.
    eexists. split; [exact Hy|]. split; [|split].
    + intros k s t Hk Hks Hparse Ht.
      destruct (new_Date_iso host s t Hparse Ht) as (Hnew & Hopt & s' & Hiso).
      exists s'. split; [|exact Hiso]. rewrite !assoc_obj_set.
      repeat apply elem_of_cons in Hk as [->|Hk];
        [..|by apply elem_of_nil in Hk]; rewrite Hks in *; cbn in *; congruence.
    + intros Habs. rewrite Habs in Hl. injection Hl as <-.
      by rewrite assoc_obj_set.
    + intros Habs. by rewrite !assoc_obj_set.
Qed.

Lemma timestamps_round_trip_witness :
  ∃ res s', sendMessage_response strict_host enqueued = Normal res
    ∧ scheduledAt res = DateAt 1704110400000
    ∧ toISOString (scheduledAt res) = Normal s'
    ∧ parse_iso s' = Some 1704110400000.
Proof.
  destruct (timestamps_round_trip strict_host enqueued eq_refl) as (Hsend & _ & _).
  destruct (Hsend _ "2024-01-01T12:00:00Z" 1704110400000 eq_refl eq_refl eq_refl)
    as (res & s' & Hres & Hat & Hiso & Hparse & _); [compute_done|].
  by exists res, s'.
Defined.

(** C5, counterexample: the response of the enqueue test carries the
    ISO 8601 timestamp [2024-01-01T12:00:00Z]; the Date decoded from it
    is the instant it denotes, and serializes with the milliseconds the
    original does not have. And the response of the [getMessage] test
    has no [lastAttemptAt], which the result has as a property, with the
    value [undefined]. *)
Lemma timestamp_reserialized_with_milliseconds :
  parse_iso "2024-01-01T12:00:00Z" = Some 1704110400000
  ∧ outcome (respond enqueued)
      (sendMessage strict_host test_client "webhook-url" test_body None)
    = Normal {| messageId := JStr "msg-123"; scheduledAt := DateAt 1704110400000 |}
  ∧ toISOString (DateAt 1704110400000) = Normal "2024-01-01T12:00:00.000Z"
  ∧ assoc "lastAttemptAt" message_props = None
  ∧ ∃ res, getMessage_response strict_host message_found = Normal (JObj res)
      ∧ assoc "lastAttemptAt" res = Some JUndefined.
Proof. do 4 (split; [reflexivity|]). eexists. split; reflexivity. Qed.

(** * Further properties of the client *)

(** ** The requests of the read operations *)

(** X1. Against every transport, [getMessage] and [getMessagesByStatus]
    issue exactly one request, to [{baseUrl}/v1/{messageId}] and to
    [{baseUrl}/v1/by-status/{STATUS}]; the request names no method (a
    GET), has no body, and [Authorization: Bearer {token}] is its only
    header: no [Content-Type], no [Done-] header. *)
Theorem read_requests host net this :
  (∀ messageId,
     ∃ init,
       requests net (getMessage host this messageId)
       = [(baseUrl (config this) +:+ "/v1/" +:+ messageId, init)]
       ∧ req_method init = None ∧ req_body init = None
       ∧ ∀ name, req_headers init !! name
                 = if decide (name = "Authorization")
                   then Some ("Bearer " +:+ authToken (config this)) else None)
  ∧ (∀ st,
       ∃ init,
         requests net (getMessagesByStatus host this st)
         = [(baseUrl (config this) +:+ "/v1/by-status/" +:+ MessageStatus_value st,
             init)]
         ∧ req_method init = None ∧ req_body init = None
         ∧ ∀ name, req_headers init !! name
                   = if decide (name = "Authorization")
                     then Some ("Bearer " +:+ authToken (config this)) else None).
Proof.
  split.
  - intros messageId. unfold requests. rewrite getMessage_run. cbn.
    eexists. split; [reflexivity|]. repeat split.
    intros name. case_decide; by simplify_map_eq.
  - intros st. unfold requests. rewrite getMessagesByStatus_run. cbn.
    eexists. split; [reflexivity|]. repeat split.
    intros name. case_decide; by simplify_map_eq.
Qed.

Lemma MessageStatus_value_inj s1 s2 :
  MessageStatus_value s1 = MessageStatus_value s2 → s1 = s2.
Proof. by destruct s1, s2. Qed.

(** X2. Two calls of [getMessagesByStatus] on one client that issue the
    same request ask for the same status: distinct members of
    [MessageStatus] are distinct paths. *)
Theorem status_requests_distinct host net this s1 s2 :
  requests net (getMessagesByStatus host this s1)
  = requests net (getMessagesByStatus host this s2) →
  s1 = s2.
Proof.
  unfold requests. rewrite !getMessagesByStatus_run. cbn.
  intros [= H]. apply MessageStatus_value_inj.
  apply (inj (String.app "/v1/by-status/")), (inj (String.app (baseUrl (config this)))).
  exact H.
Qed.

Lemma status_requests_distinct_witness :
  requests (respond queued_found) (getMessagesByStatus strict_host test_client QUEUED)
  = requests (respond queued_found) (getMessagesByStatus strict_host test_client QUEUED)
  ∧ QUEUED = QUEUED.
Proof.
  split; [reflexivity|].
  apply (status_requests_distinct strict_host (respond queued_found) test_client).
  reflexivity.
Defined.

(** X3. The path of [getMessage] is not kept apart from the one of
    [getMessagesByStatus]: [getMessage] called with the identifier
    [by-status/{STATUS}] issues the very request of
    [getMessagesByStatus] for that status. *)
Theorem getMessage_by_status_alias host net this st :
  requests net (getMessage host this ("by-status/" +:+ MessageStatus_value st))
  = requests net (getMessagesByStatus host this st).
Proof. unfold requests. by rewrite getMessage_run, getMessagesByStatus_run. Qed.

(** ** Transport failures *)

(** X4. When the transport rejects the request of an operation, the
    operation fails with the very error of the transport, not wrapped in
    an Error of the client. *)
Theorem transport_failure_propagates host net this e :
  (∀ callbackUrl body options u init,
     requests net (sendMessage host this callbackUrl body options) = [(u, init)] →
     net u init = Rejected e →
     outcome net (sendMessage host this callbackUrl body options) = Abrupt e)
  ∧ (∀ messageId u init,
       requests net (getMessage host this messageId) = [(u, init)] →
       net u init = Rejected e →
       outcome net (getMessage host this messageId) = Abrupt e)
  ∧ (∀ st u init,
       requests net (getMessagesByStatus host this st) = [(u, init)] →
       net u init = Rejected e →
       outcome net (getMessagesByStatus host this st) = Abrupt e).
Proof.
  split; [|split].
  - intros callbackUrl body options u init. unfold requests, outcome.
    rewrite sendMessage_run.
    destruct (sendMessage_headers this options) as [hs|e']; cbn; [|done].
    destruct (sendMessage_fetchOptions hs body) as [init'|e']; cbn; [|done].
    by intros [= <- <-] ->.
  - intros messageId u init. unfold requests, outcome. rewrite getMessage_run. cbn.
    by intros [= <- <-] ->.
  - intros st u init. unfold requests, outcome. rewrite getMessagesByStatus_run. cbn.
    by intros [= <- <-] ->.
Qed.

Lemma transport_failure_propagates_witness :
  outcome (refuse (NetworkFailure "connection refused"))
    (sendMessage strict_host test_client "webhook-url" test_body None)
  = Abrupt (NetworkFailure "connection refused")
  ∧ outcome (refuse (NetworkFailure "connection refused"))
      (getMessage strict_host test_client "msg-123")
    = Abrupt (NetworkFailure "connection refused")
  ∧ outcome (refuse (NetworkFailure "connection refused"))
      (getMessagesByStatus strict_host test_client DLQ)
    = Abrupt (NetworkFailure "connection refused").
Proof.
  destruct (transport_failure_propagates strict_host
              (refuse (NetworkFailure "connection refused")) test_client
              (NetworkFailure "connection refused")) as (Hsend & Hget & Hlist).
  split; [|split].
  - eapply Hsend; reflexivity.
  - eapply Hget; reflexivity.
  - eapply Hlist; reflexivity.
Defined.

(** ** Enqueue: when the request is issued *)

Lemma control_headers_invalid this options :
  dates_valid options = false → control_headers this options = Abrupt RangeError.
Proof.
  unfold dates_valid, control_headers.
  destruct (opt_chain options delay) as [[s|[|t]]|];
    destruct (opt_chain options notBefore) as [[|t']|]; try done;
    cbn; try destruct (string_truthy s); cbn;
    try destruct (civil_from_days _) as [[??]?]; cbn; done.
Qed.

(** X5. [sendMessage] builds its request before it looks at any
    response: against any two transports it issues the same requests, at
    most one. It issues none exactly when [delay] or [notBefore] is an
    invalid Date, or [JSON.stringify] throws on a truthy body; it then
    fails whatever the transport, with the RangeError of [toISOString]
    in the first case and otherwise with the TypeError of
    [JSON.stringify]. *)
Theorem sendMessage_request_before_response host net net' this callbackUrl body options :
  requests net (sendMessage host this callbackUrl body options)
  = requests net' (sendMessage host this callbackUrl body options)
  ∧ (length (requests net (sendMessage host this callbackUrl body options)) ≤ 1)%nat
  ∧ (requests net (sendMessage host this callbackUrl body options) = []
     ↔ dates_valid options = false ∨ body_serializes body = false)
  ∧ (dates_valid options = false →
     outcome net (sendMessage host this callbackUrl body options) = Abrupt RangeError)
  ∧ (dates_valid options = true → body_serializes body = false →
     outcome net (sendMessage host this callbackUrl body options) = Abrupt TypeError).
Proof.
  unfold requests, outcome. rewrite !sendMessage_run. unfold sendMessage_headers.
  destruct (dates_valid options) eqn:Hv.
  - destruct (control_headers_valid this options Hv) as [ctl ->]. cbn.
    destruct (body_serializes body) eqn:Hbody.
    + destruct (fetchOptions_serializes (custom_headers options ctl) body Hbody)
        as (init & -> & _). cbn.
      repeat split; try done; try lia;
        try (by intros [|]); try (by left); try (by right).
    + rewrite (fetchOptions_throws _ body Hbody). cbn.
      repeat split; try done; try lia;
        try (by intros [|]); try (by left); try (by right).
  - rewrite (control_headers_invalid this options Hv). cbn.
    repeat split; try done; try lia;
      try (by intros [|]); try (by left); try (by right).
Qed.

Lemma sendMessage_request_before_response_witness :
  requests (respond enqueued)
    (sendMessage strict_host test_client "webhook-url" test_body
       (Some {| delay := None; notBefore := Some InvalidDate; headers := None;
                maxAttempts := None; failureCallback := None |}))
  = []
  ∧ outcome (respond enqueued)
      (sendMessage strict_host test_client "webhook-url" test_body
         (Some {| delay := None; notBefore := Some InvalidDate; headers := None;
                  maxAttempts := None; failureCallback := None |}))
    = Abrupt RangeError
  ∧ requests (respond enqueued)
      (sendMessage strict_host test_client "webhook-url" (JBigInt 10) None)
    = []
  ∧ outcome (respond enqueued)
      (sendMessage strict_host test_client "webhook-url" (JBigInt 10) None)
    = Abrupt TypeError.
Proof.
  destruct (sendMessage_request_before_response strict_host (respond enqueued)
              (respond bad_request) test_client "webhook-url" test_body
              (Some {| delay := None; notBefore := Some InvalidDate; headers := None;
                       maxAttempts := None; failureCallback := None |}))
    as (_ & _ & Hnone & Hthrow & _).
  destruct (sendMessage_request_before_response strict_host (respond enqueued)
              (respond bad_request) test_client "webhook-url" (JBigInt 10) None)
    as (_ & _ & Hnone' & _ & Hthrow').
  split; [apply Hnone; by left|]. split; [by apply Hthrow|].
  split; [apply Hnone'; by right | by apply Hthrow'].
Defined.

(** ** Enqueue: what the request can carry *)

(** X6. Every header of a request of [sendMessage] is one of the six the
    client writes by itself ([Authorization], [Content-Type],
    [Done-Delay], [Done-Not-Before], [Done-Max-Attempts],
    [Done-Failure-Callback]) or the header [Done-K] of a custom entry
    [K: v] with its value: a caller's header never goes out under its
    own name, and none is left out of the [Done-] namespace. *)
Theorem sendMessage_header_names host net this callbackUrl body options
    u init name v :
  (u, init) ∈ requests net (sendMessage host this callbackUrl body options) →
  req_headers init !! name = Some v →
  name ∈ own_header_names
  ∨ ∃ custom K, opt_chain options headers = Some custom
                ∧ custom !! K = Some v ∧ name = "Done-" +:+ K.
Proof.
  intros (ctl & Hctl & ->)%sendMessage_request_headers.
  assert (ctl !! name = Some v → name ∈ own_header_names) as Hown.
  { rewrite (control_headers_lookup this options ctl name Hctl).
    unfold control_value, own_header_names.
    repeat case_decide; subst; try done; set_solver. }
  unfold custom_headers.
  destruct (opt_chain options headers) as [custom|] eqn:Hc; [|auto].
  rewrite custom_fold_union. intros [Hk|[_ Hk]]%lookup_union_Some_raw; [|auto].
  apply (lookup_kmap_Some (String.app "Done-")) in Hk as (K & -> & HK).
  right. by exists custom, K.
Qed.

Lemma sendMessage_header_names_witness :
  "Done-Custom-Header" ∈ own_header_names
  ∨ ∃ custom K,
      opt_chain (Some all_options) headers = Some custom
      ∧ custom !! K = Some "custom-value" ∧ "Done-Custom-Header" = "Done-" +:+ K.
Proof.
  eapply (sendMessage_header_names strict_host (respond enqueued) test_client
            "webhook-url" test_body (Some all_options)).
  - apply list_elem_of_singleton. reflexivity.
  - reflexivity.
Defined.

Lemma control_headers_drop_falsy this o :
  control_headers this (Some (drop_falsy o)) = control_headers this (Some o).
Proof.
  unfold control_headers, drop_falsy, opt_chain. cbn.
  destruct (delay o) as [[s|d]|]; cbn;
    [destruct (string_truthy s) eqn:Hs; cbn; rewrite ?Hs| |];
    (destruct (maxAttempts o) as [n|]; cbn;
      [destruct (number_truthy n) eqn:Hn; cbn; rewrite ?Hn|]);
    (destruct (failureCallback o) as [s'|]; cbn;
      [destruct (string_truthy s') eqn:Hs'; cbn; rewrite ?Hs'|]);
    reflexivity.
Qed.

(** X7. An option given a falsy value is an option not given: a call of
    [sendMessage] with an empty string [delay], a [maxAttempts] of zero
    or an empty string [failureCallback] is the call without these
    options; it issues the same requests and has the same outcome. *)
Theorem sendMessage_falsy_options_dropped host net this callbackUrl body o :
  run net (sendMessage host this callbackUrl body (Some (drop_falsy o)))
  = run net (sendMessage host this callbackUrl body (Some o)).
Proof.
  rewrite !sendMessage_run. unfold sendMessage_headers.
  by rewrite control_headers_drop_falsy.
Qed.

(** ** Enqueue: the result *)

(** X8. On a success response whose JSON is neither [null] nor missing,
    and on whose [scheduledAt] [new Date] does not throw, [sendMessage]
    does not fail: [messageId] is the response's property, whatever its
    type, and [undefined] when there is none; [scheduledAt] is the Date
    made of the response's property, and the invalid Date when there is
    none. A response that is not an object (a number, a string, an
    array) is accepted in this way. When [new Date] throws on the
    [scheduledAt] of the response, as on an object that has a property
    [toString], [sendMessage] fails with its TypeError although the
    message is enqueued. *)
Theorem sendMessage_result host net this callbackUrl body options u init r data :
  requests net (sendMessage host this callbackUrl body options) = [(u, init)] →
  net u init = Resolved r →
  ok r = true →
  json_body r = Some data →
  data ≠ JNull → data ≠ JUndefined →
  ((∀ props, data = JObj props → converts host props "scheduledAt" = true) →
   ∃ res,
     outcome net (sendMessage host this callbackUrl body options) = Normal res
     ∧ (∀ props, data = JObj props →
          messageId res = default JUndefined (assoc "messageId" props)
          ∧ new_Date host (default JUndefined (assoc "scheduledAt" props))
            = Normal (scheduledAt res)
          ∧ (assoc "scheduledAt" props = None → scheduledAt res = InvalidDate))
     ∧ ((∀ props, data ≠ JObj props) →
          messageId res = JUndefined ∧ scheduledAt res = InvalidDate))
  ∧ (∀ props, data = JObj props → converts host props "scheduledAt" = false →
       outcome net (sendMessage host this callbackUrl body options)
       = Abrupt TypeError)
  ∧ (∀ props inner, data = JObj props →
       assoc "scheduledAt" props = Some (JObj inner) →
       is_Some (assoc "toString" inner) →
       converts host props "scheduledAt" = false).
Proof.
  intros Hreq Hnet Hok Hjson Hnull Hundef.
  rewrite (sendMessage_outcome _ _ _ _ _ _ _ _ _ Hreq Hnet).
  unfold sendMessage_response, json. rewrite Hok, Hjson. cbn.
  split; [|split].
  - intros Hconv.
    destruct data as [| |b|n|n|s|d|items|props]; try done; cbn;
      try (eexists; split; [reflexivity|]; split;
           [intros props' [=] | by intros _]).
    specialize (Hconv props eq_refl). unfold converts in Hconv.
    destruct (new_Date host (default JUndefined (assoc "scheduledAt" props)))
      as [d|e] eqn:Hd; [|discriminate]. cbn.
    eexists. split; [reflexivity|]. split.
    + intros props' [= <-]. cbn. repeat split; [done|].
      intros Habs. rewrite Habs in Hd. by injection Hd as <-.
    + intros Hno. by destruct (Hno props).
  - intros props -> Hconv. cbn. unfold converts in Hconv.
    destruct (new_Date host (default JUndefined (assoc "scheduledAt" props)))
      as [d|e] eqn:Hd; [discriminate|]. cbn.
    by apply new_Date_throws in Hd as ->.
  - intros props inner -> Hat Hown. unfold converts. rewrite Hat. cbn [default from_option id].
    by rewrite (new_Date_own_toString host inner Hown).
Qed.

Lemma sendMessage_result_witness :
  ∃ res,
    outcome (respond enqueued)
      (sendMessage strict_host test_client "webhook-url" test_body None)
    = Normal res
    ∧ messageId res = JStr "msg-123"
    ∧ Normal (DateAt 1704110400000) = Normal (scheduledAt res).
Proof.
  destruct (sendMessage_result strict_host (respond enqueued) test_client
              "webhook-url" test_body None _ _ enqueued
              (JObj [("messageId", JStr "msg-123");
                     ("scheduledAt", JStr "2024-01-01T12:00:00Z")])
              eq_refl eq_refl eq_refl eq_refl)
    as (Hresult & _ & _); [discriminate..|].
  destruct Hresult as (res & Hout & Hobj & _); [by intros props [= <-]|].
  exists res. split; [exact Hout|].
  destruct (Hobj _ eq_refl) as (Hid & Hat & _).
  split; [exact Hid | exact Hat].
Defined.

(** The enqueue answered with a [scheduledAt] that is an object with a
    property [toString]: the request went out, the call fails. *)
Example sendMessage_scheduledAt_object_throws :
  run (respond
         {| status := 200; statusText := "OK";
            json_body := Some (JObj [("messageId", JStr "msg-123");
                                     ("scheduledAt",
                                      JObj [("toString", JStr "now")])]) |})
    (sendMessage strict_host test_client "webhook-url" JUndefined None)
  = ([("https://api.example.com/v1/webhook-url",
       {| req_method := Some "POST";
          req_headers := <["Content-Type" := "application/json"]>
                           {["Authorization" := "Bearer test-token"]};
          req_body := None |})],
     Abrupt TypeError).
Proof. reflexivity. Qed.

(** ** Decode failures *)

(** X9. On a success response none of the three operations checks the
    body before it reads it: a body that is not JSON text fails each
    with the SyntaxError of [response.json()]; the JSON [null] fails each
    with a TypeError; and [getMessagesByStatus] fails with a TypeError on
    every JSON value that is not an array. *)
Theorem decode_failures host r :
  ok r = true →
  (json_body r = None →
     sendMessage_response host r = Abrupt SyntaxError
     ∧ getMessage_response host r = Abrupt SyntaxError
     ∧ getMessagesByStatus_response host r = Abrupt SyntaxError)
  ∧ (json_body r = Some JNull →
       sendMessage_response host r = Abrupt TypeError
       ∧ getMessage_response host r = Abrupt TypeError
       ∧ getMessagesByStatus_response host r = Abrupt TypeError)
  ∧ (∀ data, json_body r = Some data → (∀ items, data ≠ JArr items) →
       getMessagesByStatus_response host r = Abrupt TypeError).
Proof.
  intros Hok.
  unfold sendMessage_response, getMessage_response, getMessagesByStatus_response, json.
  rewrite Hok. cbn. split; [|split].
  - by intros ->.
  - by intros ->.
  - intros data -> Harr. cbn. destruct data; try done. by destruct (Harr items).
Qed.

Lemma decode_failures_witness :
  getMessage_response strict_host
    {| status := 200; statusText := "OK"; json_body := None |}
  = Abrupt SyntaxError
  ∧ sendMessage_response strict_host
      {| status := 200; statusText := "OK"; json_body := Some JNull |}
    = Abrupt TypeError
  ∧ getMessagesByStatus_response strict_host message_found = Abrupt TypeError.
Proof.
  split; [|split].
  - destruct (decode_failures strict_host
                {| status := 200; statusText := "OK"; json_body := None |} eq_refl)
      as (Hsyntax & _ & _).
    by destruct (Hsyntax eq_refl) as (_ & Hget & _).
  - destruct (decode_failures strict_host
                {| status := 200; statusText := "OK"; json_body := Some JNull |}
                eq_refl) as (_ & Hnull & _).
    by destruct (Hnull eq_refl) as (Hsend & _ & _).
  - destruct (decode_failures strict_host message_found eq_refl) as (_ & _ & Hlist).
    by apply (Hlist (JObj message_props)).
Defined.

(** ** Fetch by id: the timestamps of the result *)

(** X10. The result of [getMessage] on a success response whose JSON is
    an object, on whose timestamps [new Date] does not throw, has the
    four properties [createdAt], [updatedAt], [scheduledAt] and
    [lastAttemptAt]. One of the first three that the response lacks is
    the invalid Date, not a failure; one that is a number is the Date of
    that many milliseconds since the epoch. A [lastAttemptAt] that is
    falsy in the response ([null], the empty string, zero, [false]) is
    [undefined] in the result, and one that is a non-empty string is the
    Date parsed from it. When [new Date] throws on a timestamp, as on an
    object that has a property [toString], [getMessage] fails with its
    TypeError. *)
Theorem getMessage_timestamps host r props :
  ok r = true →
  json_body r = Some (JObj props) →
  (message_converts host props = true →
   ∃ res,
     getMessage_response host r = Normal (JObj res)
     ∧ (∀ k, k ∈ ["createdAt"; "updatedAt"; "scheduledAt"; "lastAttemptAt"] →
          is_Some (assoc k res))
     ∧ (∀ k, k ∈ ["createdAt"; "updatedAt"; "scheduledAt"] →
          (assoc k props = None → assoc k res = Some (JDateV InvalidDate))
          ∧ (∀ n, assoc k props = Some (JNum n) → Z.abs n ≤ maxTime →
               assoc k res = Some (JDateV (DateAt n))))
     ∧ (∀ v, assoc "lastAttemptAt" props = Some v → ToBoolean v = false →
          assoc "lastAttemptAt" res = Some JUndefined)
     ∧ (∀ s, assoc "lastAttemptAt" props = Some (JStr s) → s ≠ "" →
          assoc "lastAttemptAt" res = Some (JDateV (Date_parse host s))))
  ∧ (message_converts host props = false →
     getMessage_response host r = Abrupt TypeError)
  ∧ (∀ k inner, k ∈ ["createdAt"; "updatedAt"; "scheduledAt"; "lastAttemptAt"] →
       assoc k props = Some (JObj inner) → is_Some (assoc "toString" inner) →
       message_converts host props = false).
Proof.
  intros Hok Hjson.
  unfold getMessage_response, json. rewrite Hok, Hjson.
  cbn [negb mbind Completion_mbind].
  split; [|split].
  - intros Hconv.
    destruct (getMessage_result_cases host props)
      as [(_ & c & upd & sch & l & Hc & Hu & Hs & Hl & ->)|[Hno _]]; [|congruence].
    eexists. split; [reflexivity|]. split; [|split; [|split]].
    + intros k Hk. rewrite !assoc_obj_set.
      repeat apply elem_of_cons in Hk as [->|Hk]; [by cbn; eauto..|].
      by apply elem_of_nil in Hk.
    + assert (∀ v d, new_Date host v = Normal d →
                (v = JUndefined → d = InvalidDate)
                ∧ ∀ n, v = JNum n → Z.abs n ≤ maxTime → d = DateAt n) as Hnew.
      { intros v d Hd. split; [intros ->; by injection Hd as <-|].
        intros n -> Hn. cbn in Hd. injection Hd as <-. unfold TimeClip.
        by destruct (Z.leb_spec (Z.abs n) maxTime); [|lia]. }
      intros k Hk. rewrite !assoc_obj_set.
      repeat apply elem_of_cons in Hk as [->|Hk];
        [..|by apply elem_of_nil in Hk]; cbn;
        (split; [intros Hk | intros n Hk Hn]; rewrite Hk in *; do 2 f_equal;
         eapply Hnew; eauto).
    + intros v Hv Hfalsy. rewrite assoc_obj_set. cbn. rewrite Hv in Hl.
      unfold optional_Date in Hl. cbn [default from_option id] in Hl.
      rewrite Hfalsy in Hl. by injection Hl as <-.
    + intros s Hks Hne. rewrite assoc_obj_set. cbn. rewrite Hks in Hl.
      change (optional_Date host (JStr s) = Normal l) in Hl.
      rewrite optional_Date_string in Hl by done. by injection Hl as <-.
  - intros Hconv.
    by destruct (getMessage_result_cases host props) as [[Hyes _]|[_ ->]];
      [congruence|].
  - intros k inner Hk Hks Hown.
    pose proof (new_Date_own_toString host inner Hown) as Hthrow.
    unfold message_converts, converts, optional_converts, optional_Date.
    repeat apply elem_of_cons in Hk as [->|Hk];
      [..|by apply elem_of_nil in Hk]; rewrite Hks; cbn [default from_option id ToBoolean];
      rewrite Hthrow; cbn; by rewrite ?andb_false_r.
Qed.

Lemma getMessage_timestamps_witness :
  ∃ res,
    getMessage_response strict_host
      {| status := 200; statusText := "OK";
         json_body := Some (JObj [("id", JStr "msg-1"); ("createdAt", JNum 0);
                                  ("lastAttemptAt", JNull)]) |}
    = Normal (JObj res)
    ∧ assoc "createdAt" res = Some (JDateV (DateAt 0))
    ∧ assoc "updatedAt" res = Some (JDateV InvalidDate)
    ∧ assoc "lastAttemptAt" res = Some JUndefined.
Proof.
  destruct (getMessage_timestamps strict_host
              {| status := 200; statusText := "OK";
                 json_body := Some (JObj [("id", JStr "msg-1"); ("createdAt", JNum 0);
                                          ("lastAttemptAt", JNull)]) |}
              _ eq_refl eq_refl)
    as (Hresult & _ & _).
  destruct (Hresult eq_refl) as (res & Hres & _ & Hthree & Hfalsy & _).
  exists res. split; [exact Hres|]. split; [|split].
  - destruct (Hthree "createdAt") as [_ Hnum]; [compute_done|].
    apply (Hnum 0); [reflexivity | compute_done].
  - destruct (Hthree "updatedAt") as [Hmiss _]; [compute_done|].
    by apply Hmiss.
  - by apply (Hfalsy JNull).
Defined.

(** A message whose [createdAt] is an object with a property [toString]
    is not returned. *)
Example getMessage_createdAt_object_throws :
  getMessage_response strict_host
    {| status := 200; statusText := "OK";
       json_body := Some (JObj [("id", JStr "msg-1");
                                ("createdAt", JObj [("toString", JNull)])]) |}
  = Abrupt TypeError.
Proof. reflexivity. Qed.

(** X11. The result of [getMessage] keeps the properties of the response
    in their order: the names of the response are a prefix of the names
    of the result, and the names of the result are those of the response
    together with the four timestamp names (appended when the response
    lacks them). *)
Theorem getMessage_property_order host props res :
  getMessage_result host (JObj props) = Normal (JObj res) →
  props.*1 `prefix_of` res.*1
  ∧ ∀ k, k ∈ res.*1
         ↔ k ∈@{list string} props.*1
           ∨ k ∈ ["createdAt"; "updatedAt"; "scheduledAt"; "lastAttemptAt"].
Proof.
  destruct (getMessage_result_cases host props)
    as [(_ & c & upd & sch & l & _ & _ & _ & _ & ->)|[_ ->]]; [|discriminate].
  intros [= <-]. split.
  - do 3 (etrans; [|apply obj_set_keys_prefix]). apply obj_set_keys_prefix.
  - intros k. rewrite !elem_of_obj_set_keys, !elem_of_cons, elem_of_nil. tauto.
Qed.

Lemma getMessage_property_order_witness :
  ∃ res,
    getMessage_result strict_host (JObj message_props) = Normal (JObj res)
    ∧ message_props.*1 `prefix_of` res.*1
    ∧ "lastAttemptAt" ∈ res.*1.
Proof.
  eexists. split; [reflexivity|].
  destruct (getMessage_property_order strict_host message_props _ eq_refl)
    as [Hprefix Hnames].
  split; [exact Hprefix|]. apply Hnames. right. compute_done.
Defined.

(** ** List by status: a bad entry *)

Lemma Array_map_Normal (f : JsValue → Completion JsValue) items out x :
  Array_map f items = Normal out → x ∈ items → ∃ y, f x = Normal y.
Proof.
  revert out. induction items as [|x0 rest IH]; intros out; cbn.
  - by intros _ ?%elem_of_nil.
  - destruct (f x0) as [y0|e] eqn:Hx0; cbn; [|done].
    destruct (Array_map f rest) as [ys|e]; cbn; [|done].
    intros _ [->|Hin]%elem_of_cons; [eauto | by eapply IH].
Qed.

(** X12. One [null] among the entries fails the whole listing: on a
    success response whose JSON array holds a [null],
    [getMessagesByStatus] fails with a TypeError and returns none of the
    other entries. *)
Theorem listing_fails_on_null host r items :
  ok r = true →
  json_body r = Some (JArr items) →
  JNull ∈ items →
  getMessagesByStatus_response host r = Abrupt TypeError.
Proof.
  intros Hok Hjson Hnull.
  unfold getMessagesByStatus_response, json. rewrite Hok, Hjson. cbn.
  destruct (Array_map (status_info host) items) as [out|e] eqn:Hmap.
  - destruct (Array_map_Normal _ _ _ _ Hmap Hnull) as [y Hy]. discriminate Hy.
  - by apply Array_map_throws in Hmap as ->.
Qed.

Lemma listing_fails_on_null_witness :
  getMessagesByStatus_response strict_host
    {| status := 200; statusText := "OK";
       json_body := Some (JArr (JNull :: queued_items)) |}
  = Abrupt TypeError.
Proof.
  apply (listing_fails_on_null strict_host _ (JNull :: queued_items));
    [reflexivity | reflexivity | apply list_elem_of_here].
Defined.

(** ** Normalising twice *)

Lemma obj_set_same k v props : assoc k props = Some v → obj_set k v props = props.
Proof.
  induction props as [|[k0 v0] rest IH]; cbn; [done|].
  destruct (String.eqb_spec k k0) as [->|Hne]; [by intros [= ->]|].
  intros Hrest. by rewrite IH.
Qed.

Lemma optional_Date_idempotent host x y :
  optional_Date host x = Normal y → optional_Date host y = Normal y.
Proof.
  unfold optional_Date. destruct (ToBoolean x); [|by intros [= <-]].
  destruct (new_Date host x) as [d|e]; cbn; [by intros [= <-] | discriminate].
Qed.

(** X13. The conversions of [getMessage] and of [getMessagesByStatus]
    leave their own results unchanged: applied to a message (or an
    entry) they have already converted, they return it as it is, Dates
    being copied and [undefined] staying [undefined]. *)
Theorem conversion_idempotent host props res :
  (getMessage_result host (JObj props) = Normal (JObj res) →
   getMessage_result host (JObj res) = Normal (JObj res))
  ∧ (status_info host (JObj props) = Normal (JObj res) →
     status_info host (JObj res) = Normal (JObj res)).
Proof.
  split.
  - destruct (getMessage_result_cases host props)
      as [(_ & c & upd & sch & l & _ & _ & _ & Hl & ->)|[_ ->]]; [|discriminate].
    intros [= <-]. rewrite getMessage_result_object.
    repeat (rewrite !assoc_obj_set; cbn).
    rewrite (optional_Date_idempotent host _ l Hl). cbn.
    do 2 f_equal.
    rewrite (obj_set_same "createdAt") by (by rewrite !assoc_obj_set).
    rewrite (obj_set_same "updatedAt") by (by rewrite !assoc_obj_set).
    rewrite (obj_set_same "scheduledAt") by (by rewrite !assoc_obj_set).
    by rewrite (obj_set_same "lastAttemptAt") by (by rewrite !assoc_obj_set).
  - destruct (status_info_cases host props)
      as [(_ & sch & l & _ & Hl & ->)|[_ ->]]; [|discriminate].
    intros [= <-]. rewrite status_info_object.
    repeat (rewrite !assoc_obj_set; cbn).
    rewrite (optional_Date_idempotent host _ l Hl). cbn.
    do 2 f_equal.
    rewrite (obj_set_same "scheduledAt") by (by rewrite !assoc_obj_set).
    by rewrite (obj_set_same "lastAttemptAt") by (by rewrite !assoc_obj_set).
Qed.

Lemma conversion_idempotent_witness :
  ∃ res,
    getMessage_result strict_host (JObj message_props) = Normal (JObj res)
    ∧ getMessage_result strict_host (JObj res) = Normal (JObj res).
Proof.
  eexists. split; [reflexivity|].
  destruct (conversion_idempotent strict_host message_props
              (obj_set "lastAttemptAt" JUndefined
                 (obj_set "scheduledAt" (JDateV (DateAt 1704110700000))
                    (obj_set "updatedAt" (JDateV (DateAt 1704110400000))
                       (obj_set "createdAt" (JDateV (DateAt 1704110400000))
                          message_props))))) as [Hmessage _].
  by apply Hmessage.
Defined.

(** ** Telling the operations apart by their failures *)

Lemma response_Error host r m :
  (sendMessage_response host r = Abrupt (Error m) →
   Error m = failure "Failed to send message" r)
  ∧ (getMessage_response host r = Abrupt (Error m) →
     Error m = failure "Failed to get message" r)
  ∧ (getMessagesByStatus_response host r = Abrupt (Error m) →
     Error m = failure "Failed to get messages by status" r).
Proof.
  unfold sendMessage_response, getMessage_response, getMessagesByStatus_response, json.
  destruct (ok r); cbn; [|by repeat split; intros [= <-]].
  destruct (json_body r) as [v|]; [|done].
  split; [|split].
  - by intros ?%sendMessage_decode_throws.
  - by intros ?%getMessage_result_throws.
  - unfold getMessagesByStatus_result. destruct v; try done.
    by intros ?%Array_map_throws.
Qed.

(** X14. An Error of the client names its operation: whatever the
    responses, the Error with which one of [sendMessage], [getMessage]
    and [getMessagesByStatus] fails on a response is not an Error with
    which another of them fails. *)
Theorem failures_tell_operations_apart host r r' m :
  (sendMessage_response host r = Abrupt (Error m) →
   getMessage_response host r' ≠ Abrupt (Error m)
   ∧ getMessagesByStatus_response host r' ≠ Abrupt (Error m))
  ∧ (getMessage_response host r = Abrupt (Error m) →
     getMessagesByStatus_response host r' ≠ Abrupt (Error m)).
Proof.
  destruct (response_Error host r m) as (Hsend & Hget & _).
  destruct (response_Error host r' m) as (_ & Hget' & Hlist').
  split.
  - intros H1%Hsend.
    split; [intros H2%Hget' | intros H2%Hlist'];
      rewrite H1 in H2; cbv [failure String.append] in H2; discriminate H2.
  - intros H1%Hget H2%Hlist'.
    rewrite H1 in H2. cbv [failure String.append] in H2. discriminate H2.
Qed.

Lemma failures_tell_operations_apart_witness :
  sendMessage_response strict_host bad_request
  = Abrupt (Error "Failed to send message: 400 Bad Request")
  ∧ (getMessage_response strict_host bad_request
     = Abrupt (Error "Failed to send message: 400 Bad Request") → False).
Proof.
  split; [reflexivity|].
  by apply (failures_tell_operations_apart strict_host bad_request bad_request
              "Failed to send message: 400 Bad Request").
Defined.
